(** * Cantata device layer: USB mass-storage and audio CD devices

    A shallow embedding of [devices/umsdevice.cpp] and
    [devices/audiocddevice.cpp].  Member functions become functions on a
    record holding the object's fields; emitted Qt signals and calls into
    collaborators that live outside these two files are recorded, in
    order, in a list of events; everything the two files call but do not
    define (the MPD library model, the encoders, the file system, ...) is
    taken as a parameter. *)

From Stdlib Require Import ZArith QArith Ascii.
From stdpp Require Import base list strings gmap.

Local Open Scope Z_scope.

(** ** QString operations used by the two files *)

Module QString.

(** Characters are the 256 Latin-1 code points. *)
Definition ch (n : nat) : ascii := Ascii.ascii_of_nat n.

Definition isEmpty (s : string) : bool :=
  match s with EmptyString => true | String _ _ => false end.

Definition size (s : string) : nat := String.length s.

(** [s.startsWith(p)] *)
Fixpoint startsWith (s p : string) {struct p} : bool :=
  match p with
  | EmptyString => true
  | String a p' =>
      match s with
      | EmptyString => false
      | String b s' => if Ascii.eqb a b then startsWith s' p' else false
      end
  end.

(** [s.endsWith(c)] for a single character. *)
Fixpoint endsWithChar (s : string) (c : ascii) : bool :=
  match s with
  | EmptyString => false
  | String a EmptyString => Ascii.eqb a c
  | String _ s' => endsWithChar s' c
  end.

(** [s.mid(pos)]: the text from position [pos] to the end. *)
Fixpoint mid (s : string) (pos : nat) {struct pos} : string :=
  match pos with
  | O => s
  | S n => match s with
           | EmptyString => EmptyString
           | String _ s' => mid s' n
           end
  end.

(** [s.lastIndexOf(m)] for a non-empty [m]: the greatest position at
    which [m] occurs in [s], or -1.  [i] is the position of the head
    of [s] in the whole string. *)
Fixpoint lastIndexOf_from (s m : string) (i : Z) : Z :=
  match s with
  | EmptyString => if startsWith s m then i else -1
  | String _ s' =>
      let r := lastIndexOf_from s' m (i + 1) in
      if r =? -1 then (if startsWith s m then i else -1) else r
  end.

Definition lastIndexOf (s m : string) : Z := lastIndexOf_from s m 0.

(** The fields of [s] separated by [sep]; empty fields are kept. *)
Fixpoint fields (sep : ascii) (s : string) : list string :=
  match s with
  | EmptyString => [EmptyString]
  | String c s' =>
      if Ascii.eqb c sep then EmptyString :: fields sep s'
      else match fields sep s' with
           | f :: fs => String c f :: fs
           | [] => [String c EmptyString]
           end
  end.

(** [s.section(sep, first, last)] with non-negative indexes and the
    default flags: fields [first] to [last], joined by [sep]. *)
Definition section (s : string) (sep : ascii) (first last : nat) : string :=
  String.concat (String sep EmptyString)
                (take (S last - first) (drop first (fields sep s))).

(** [s.split(sep, Qt::SkipEmptyParts)] *)
Definition splitSkipEmpty (sep : ascii) (s : string) : list string :=
  List.filter (fun f => negb (isEmpty f)) (fields sep s).

(** [QChar::isSpace] on Latin-1: TAB..CR, space, NEL and NBSP. *)
Definition isSpace (c : ascii) : bool :=
  let n := Ascii.nat_of_ascii c in
  ((9 <=? n)%nat && (n <=? 13)%nat) || (n =? 32)%nat || (n =? 133)%nat || (n =? 160)%nat.

Fixpoint trimLeft (s : string) : string :=
  match s with
  | EmptyString => EmptyString
  | String c s' => if isSpace c then trimLeft s' else s
  end.

Fixpoint trimRight (s : string) : string :=
  match s with
  | EmptyString => EmptyString
  | String c s' =>
      match trimRight s' with
      | EmptyString => if isSpace c then EmptyString else String c EmptyString
      | r => String c r
      end
  end.

(** [s.trimmed()] *)
Definition trimmed (s : string) : string := trimRight (trimLeft s).

(** [s.replace(a, b)] for single characters. *)
Fixpoint replaceChar (a b : ascii) (s : string) : string :=
  match s with
  | EmptyString => EmptyString
  | String c s' => String (if Ascii.eqb c a then b else c) (replaceChar a b s')
  end.

(** The longest prefix of [s] free of characters satisfying [stop],
    and what follows it. *)
Fixpoint span (stop : ascii -> bool) (s : string) : string * string :=
  match s with
  | EmptyString => (EmptyString, EmptyString)
  | String c s' =>
      if stop c then (EmptyString, s)
      else let '(a, b) := span stop s' in (String c a, b)
  end.

End QString.

(** ** QUrl and QUrlQuery, as far as [getDevice] uses them *)

Module QUrl.
Import QString.

(** A parsed URL: [scheme()], [path()] and the query text. *)
Record t := mk { scheme : string; path : string; query : string }.

(** The items of a query: [key=value] pairs separated by [&]; the key
    ends at the first [=]. *)
Definition queryItem (item : string) : string * string :=
  let '(k, rest) := span (Ascii.eqb "="%char) item in
  (k, mid rest 1).

Definition queryItems (u : t) : list (string * string) :=
  if isEmpty (query u) then []
  else List.map queryItem (fields "&"%char (query u)).

(** [QUrlQuery::hasQueryItem] *)
Definition hasQueryItem (u : t) (key : string) : bool :=
  existsb (fun kv => String.eqb (fst kv) key) (queryItems u).

(** [QUrlQuery::queryItemValue]: the value of the first item with this
    key, the empty string when there is none. *)
Definition queryItemValue (u : t) (key : string) : string :=
  match List.find (fun kv => String.eqb (fst kv) key) (queryItems u) with
  | Some kv => snd kv
  | None => EmptyString
  end.

Definition isOneOf (cs : list ascii) (c : ascii) : bool :=
  existsb (Ascii.eqb c) cs.

(** Splitting of a URL text into components after RFC 3986:
    [scheme ":" ["//" authority] path ["?" query] ["#" fragment]].
    The text is expected with a lower-case scheme and without percent
    escapes, which is all the URLs of this program need. *)
Definition fromString (s : string) : t :=
  let '(sch, r) := span (Ascii.eqb ":"%char) s in
  match r with
  | EmptyString => mk EmptyString s EmptyString
  | String _ r1 =>
      let r2 :=
        if startsWith r1 "//"
        then snd (span (isOneOf ["/"; "?"; "#"]%char) (mid r1 2))
        else r1 in
      let '(p, r3) := span (isOneOf ["?"; "#"]%char) r2 in
      let q := match r3 with
               | String "?"%char r4 => fst (span (Ascii.eqb "#"%char) r4)
               | _ => EmptyString
               end in
      mk sch p q
  end.

End QUrl.

(** ** Options of a device and the mounted file system *)

Module DeviceOptions.

(** [DeviceOptions], the configuration bag of a device.  The struct is
    declared outside the two files; these are the members they use. *)
Record t := mk {
  scheme : string;
  vfatSafe : bool;
  asciiOnly : bool;
  ignoreThe : bool;
  replaceSpaces : bool;
  name : string;
  coverName : string;
  fixVariousArtists : bool;
  autoScan : bool;
  useCache : bool;
  transcoderCodec : string;
  transcoderValue : Z
}.

Definition set_scheme (v : string) (o : t) : t :=
  mk v (vfatSafe o) (asciiOnly o) (ignoreThe o) (replaceSpaces o) (name o)
     (coverName o) (fixVariousArtists o) (autoScan o) (useCache o)
     (transcoderCodec o) (transcoderValue o).
Definition set_vfatSafe (v : bool) (o : t) : t :=
  mk (scheme o) v (asciiOnly o) (ignoreThe o) (replaceSpaces o) (name o)
     (coverName o) (fixVariousArtists o) (autoScan o) (useCache o)
     (transcoderCodec o) (transcoderValue o).
Definition set_asciiOnly (v : bool) (o : t) : t :=
  mk (scheme o) (vfatSafe o) v (ignoreThe o) (replaceSpaces o) (name o)
     (coverName o) (fixVariousArtists o) (autoScan o) (useCache o)
     (transcoderCodec o) (transcoderValue o).
Definition set_ignoreThe (v : bool) (o : t) : t :=
  mk (scheme o) (vfatSafe o) (asciiOnly o) v (replaceSpaces o) (name o)
     (coverName o) (fixVariousArtists o) (autoScan o) (useCache o)
     (transcoderCodec o) (transcoderValue o).
Definition set_replaceSpaces (v : bool) (o : t) : t :=
  mk (scheme o) (vfatSafe o) (asciiOnly o) (ignoreThe o) v (name o)
     (coverName o) (fixVariousArtists o) (autoScan o) (useCache o)
     (transcoderCodec o) (transcoderValue o).
Definition set_name (v : string) (o : t) : t :=
  mk (scheme o) (vfatSafe o) (asciiOnly o) (ignoreThe o) (replaceSpaces o) v
     (coverName o) (fixVariousArtists o) (autoScan o) (useCache o)
     (transcoderCodec o) (transcoderValue o).
Definition set_coverName (v : string) (o : t) : t :=
  mk (scheme o) (vfatSafe o) (asciiOnly o) (ignoreThe o) (replaceSpaces o)
     (name o) v (fixVariousArtists o) (autoScan o) (useCache o)
     (transcoderCodec o) (transcoderValue o).

End DeviceOptions.

Module FileSystem.

(** What the devices see of the disk: the text files, each as the list
    of its lines (what [QTextStream::readLine] returns one by one, and
    what one [out << ... << '\n'] statement writes), the directories
    that exist, and the files that cannot be opened for writing. *)
Record t := mk {
  files : gmap string (list string);
  dirs : gset string;
  unwritable : gset string
}.

(** [QFile::exists] *)
Definition exists_ (fs : t) (f : string) : bool :=
  bool_decide (is_Some (files fs !! f)).

(** [QDir(d).exists()] *)
Definition dirExists (fs : t) (d : string) : bool := bool_decide (d ∈ dirs fs).

(** [QFile::remove] *)
Definition remove (fs : t) (f : string) : t :=
  mk (delete f (files fs)) (dirs fs) (unwritable fs).

(** A file opened with [QIODevice::WriteOnly] and written to. *)
Definition write (fs : t) (f : string) (lines : list string) : t :=
  mk (<[f := lines]> (files fs)) (dirs fs) (unwritable fs).

Definition canWrite (fs : t) (f : string) : bool :=
  bool_decide (f ∉ unwritable fs).

End FileSystem.

(** ** UmsDevice *)

Module UmsDevice.
Import QString.

Definition constSettingsFile : string := "/.is_audio_player".
Definition constMusicFolderKey : string := "audio_folder".
Definition constCollectionNameKey : string := "collection_name".

(** [Solid::StorageAccess], the mount handle of the device. *)
Record StorageAccess := mkAccess {
  isValid : bool;
  isAccessible : bool;
  filePath : string
}.

(** [QStorageInfo]-like capacity figures. *)
Record SpaceInfo := mkSpace {
  path : string;
  size : Z;
  used : Z
}.

(** The members of [UmsDevice] and of its bases [FsDevice] and
    [Device] that the functions below read or write. *)
Record t := mk {
  solidDevValid : bool;
  access : option StorageAccess;
  spaceInfo : SpaceInfo;
  audioFolder : string;
  opts : DeviceOptions.t;
  configured : bool;
  unusedParams : list string;
  defaultName : string;
  data : string;
  scanned : bool;
  cacheProgress : Z;
  statusMessage : string
}.

(** What [FsDevice] and its collaborators contribute: the keys and
    file names declared in [fsdevice.h], the values of a
    default-constructed [DeviceOptions], and the helpers. *)
Record Env := mkEnv {
  constMusicFilenameSchemeKey : string;
  constVfatSafeKey : string;
  constAsciiOnlyKey : string;
  constIgnoreTheKey : string;
  constReplaceSpacesKey : string;
  constCantataSettingsFile : string;
  constDefCoverFileName : string;
  def : DeviceOptions.t;
  readOpts : FileSystem.t -> string -> DeviceOptions.t -> bool * DeviceOptions.t;
  cleanPath : string -> string;
  formatByteSize : Z -> string
}.

(** Signals emitted and base-class calls made by [setup]. *)
Inductive Event :=
| Rescan (full : bool)
| Renamed.

(** [UmsDevice::isConnected] *)
Definition isConnected (d : t) : bool :=
  solidDevValid d &&
  match access d with
  | Some a => isValid a && isAccessible a
  | None => false
  end.

(** [(a*1.0)/(b*1.0)]: the quotient of two integers as a double, kept
    as the exact rational. *)
Definition quotient (a b : Z) : Q := (inject_Z a / inject_Z b)%Q.

(** [UmsDevice::usedCapacity] *)
Definition usedCapacity (d : t) : Q :=
  if cacheProgress d >? -1 then quotient (cacheProgress d) 100
  else if negb (isConnected d) then inject_Z (-1)
  else if size (spaceInfo d) >? 0
       then quotient (used (spaceInfo d)) (size (spaceInfo d))
       else inject_Z (-1).

(** [UmsDevice::capacityString]; [tr("%1 free").arg(x)] is [x] followed
    by the untranslated text. *)
Definition capacityString (E : Env) (d : t) : string :=
  if cacheProgress d >? -1 then statusMessage d
  else if negb (isConnected d) then "Not Connected"
  else formatByteSize E (size (spaceInfo d) - used (spaceInfo d)) +:+ " free".

(** [UmsDevice::freeSpace] *)
Definition freeSpace (d : t) : Z :=
  if negb (isConnected d) then 0
  else size (spaceInfo d) - used (spaceInfo d).

(** The variables assigned by the reading loop of [setup]: the members
    [audioFolder], [opts] and [unusedParams] and the local
    [audioFolderSetting]. *)
Record Parsed := mkParsed {
  p_audioFolder : string;
  p_audioFolderSetting : string;
  p_opts : DeviceOptions.t;
  p_unusedParams : list string
}.

(** [line.section('=', 1, 1)] *)
Definition value (line : string) : string := section line "="%char 1 1.

(** [QLatin1String("true")==v] *)
Definition isTrue (v : string) : bool := String.eqb "true" v.

Definition withOpts (p : Parsed) (o : DeviceOptions.t) : Parsed :=
  mkParsed (p_audioFolder p) (p_audioFolderSetting p) o (p_unusedParams p).

(** One turn of the [while (!in.atEnd())] loop of [setup]. *)
Definition setupLine (E : Env) (fs : FileSystem.t) (path : string)
           (p : Parsed) (line : string) : Parsed :=
  if startsWith line (constMusicFolderKey +:+ "=") then
    let folder := cleanPath E (path +:+ "/" +:+ value line) in
    mkParsed (if negb (FileSystem.dirExists fs folder) then path else folder)
             folder (p_opts p) (p_unusedParams p)
  else if startsWith line (constMusicFilenameSchemeKey E +:+ "=") then
    let scheme := value line in
    if negb (isEmpty scheme)
    then withOpts p (DeviceOptions.set_scheme scheme (p_opts p))
    else p
  else if startsWith line (constVfatSafeKey E +:+ "=") then
    withOpts p (DeviceOptions.set_vfatSafe (isTrue (value line)) (p_opts p))
  else if startsWith line (constAsciiOnlyKey E +:+ "=") then
    withOpts p (DeviceOptions.set_asciiOnly (isTrue (value line)) (p_opts p))
  else if startsWith line (constIgnoreTheKey E +:+ "=") then
    withOpts p (DeviceOptions.set_ignoreThe (isTrue (value line)) (p_opts p))
  else if startsWith line (constReplaceSpacesKey E +:+ "=") then
    withOpts p (DeviceOptions.set_replaceSpaces (isTrue (value line)) (p_opts p))
  else if startsWith line (constCollectionNameKey +:+ "=") then
    withOpts p (DeviceOptions.set_name (trimmed (value line)) (p_opts p))
  else
    mkParsed (p_audioFolder p) (p_audioFolderSetting p) (p_opts p)
             (p_unusedParams p ++ [line]).

(** The standard folders probed by [setup], in order. *)
Definition standardDirs : list string := ["Music"; "MUSIC"; "Albums"; "ALBUMS"].

(** The [for (const QString &d: dirs)] loop of [setup], with its
    [break]. *)
Fixpoint probeDirs (fs : FileSystem.t) (path : string) (ds : list string)
         (audioFolder : string) : string :=
  match ds with
  | [] => audioFolder
  | d :: ds' =>
      if FileSystem.dirExists fs (path +:+ d) then path +:+ d
      else probeDirs fs path ds' audioFolder
  end.

(** [UmsDevice::setup].  [rescan] is [FsDevice]'s and is recorded as
    an event; [setStatusMessage] and [setData] store their argument. *)
Definition setup (E : Env) (fs : FileSystem.t) (d : t) : t * list Event :=
  if negb (isConnected d) then (d, []) else
  let path := path (spaceInfo d) in
  let n := data d in
  let '(haveOpts, opts0) :=
    readOpts E fs (path +:+ constCantataSettingsFile E) (opts d) in
  let p0 := mkParsed path EmptyString opts0 (unusedParams d) in
  let '(configured1, p) :=
    match FileSystem.files fs !! (path +:+ constSettingsFile) with
    | Some lines => (true, fold_left (setupLine E fs path) lines p0)
    | None => (configured d, p0)
    end in
  let configured2 := if negb configured1 then haveOpts else configured1 in
  let opts1 :=
    if isEmpty (DeviceOptions.coverName (p_opts p))
    then DeviceOptions.set_coverName (constDefCoverFileName E) (p_opts p)
    else p_opts p in
  let audioFolder1 :=
    if isEmpty (p_audioFolderSetting p)
       || negb (String.eqb (p_audioFolderSetting p) (p_audioFolder p))
    then probeDirs fs path standardDirs (p_audioFolder p)
    else p_audioFolder p in
  let audioFolder2 :=
    if negb (endsWithChar audioFolder1 "/"%char) then audioFolder1 +:+ "/"
    else audioFolder1 in
  let doScan := DeviceOptions.autoScan opts1 || scanned d in
  let status := if doScan then statusMessage d else "Not Scanned" in
  let rename := negb (isEmpty (DeviceOptions.name opts1))
                && negb (String.eqb (DeviceOptions.name opts1) n) in
  (mk (solidDevValid d) (access d) (spaceInfo d) audioFolder2 opts1
      configured2 (p_unusedParams p) (defaultName d)
      (if rename then DeviceOptions.name opts1 else n)
      (scanned d) (cacheProgress d) status,
   (if doScan then [Rescan false] else []) ++ (if rename then [Renamed] else [])).

(** [toString(bool)] *)
Definition toString (b : bool) : string := if b then "true" else "false".

(** [out << key << '=' << v << '\n'] *)
Definition keyLine (key v : string) : string := key +:+ "=" +:+ v.

(** What [out << ...] writes when [cond] holds. *)
Definition emitIf (cond : bool) (line : string) : list string :=
  if cond then [line] else [].

(** The key lines [saveOptions] writes, in order. *)
Definition savedKeys (E : Env) (d : t) : list string :=
  let path := path (spaceInfo d) in
  let fixedPath :=
    if startsWith (audioFolder d) path
    then "./" +:+ mid (audioFolder d) (QString.size path)
    else audioFolder d in
  let o := opts d in
  let schemeDiffers :=
    negb (String.eqb (DeviceOptions.scheme o) (DeviceOptions.scheme (def E))) in
  emitIf (negb (isEmpty fixedPath)) (keyLine constMusicFolderKey fixedPath)
  ++ emitIf schemeDiffers
       (keyLine (constMusicFilenameSchemeKey E) (DeviceOptions.scheme o))
  ++ emitIf schemeDiffers
       (keyLine (constVfatSafeKey E) (toString (DeviceOptions.vfatSafe o)))
  ++ emitIf (negb (Bool.eqb (DeviceOptions.asciiOnly o) (DeviceOptions.asciiOnly (def E))))
       (keyLine (constAsciiOnlyKey E) (toString (DeviceOptions.asciiOnly o)))
  ++ emitIf (negb (Bool.eqb (DeviceOptions.ignoreThe o) (DeviceOptions.ignoreThe (def E))))
       (keyLine (constIgnoreTheKey E) (toString (DeviceOptions.ignoreThe o)))
  ++ emitIf (negb (Bool.eqb (DeviceOptions.replaceSpaces o) (DeviceOptions.replaceSpaces (def E))))
       (keyLine (constReplaceSpacesKey E) (toString (DeviceOptions.replaceSpaces o)))
  ++ emitIf (negb (isEmpty (DeviceOptions.name o))
             && negb (String.eqb (DeviceOptions.name o) (defaultName d)))
       (keyLine constCollectionNameKey (DeviceOptions.name o)).

(** Everything [saveOptions] writes: the keys, then the loop over
    [unusedParams]. *)
Definition savedLines (E : Env) (d : t) : list string :=
  savedKeys E d ++ unusedParams d.

(** [UmsDevice::saveOptions]: its effect on the disk. *)
Definition saveOptions (E : Env) (fs : FileSystem.t) (d : t) : FileSystem.t :=
  if negb (isConnected d) then fs else
  let file := path (spaceInfo d) +:+ constSettingsFile in
  if FileSystem.canWrite fs file
  then FileSystem.write fs file (savedLines E d)
  else fs.

Definition set_opts (o : DeviceOptions.t) (d : t) : t :=
  mk (solidDevValid d) (access d) (spaceInfo d) (audioFolder d) o (configured d)
     (unusedParams d) (defaultName d) (data d) (scanned d) (cacheProgress d)
     (statusMessage d).

(** The settings file of the device: [path+constSettingsFile]. *)
Definition settingsFile (d : t) : string :=
  path (spaceInfo d) +:+ constSettingsFile.

(** The keys [setup] tests for, in the order of its tests. *)
Definition recognizedKeys (E : Env) : list string :=
  [constMusicFolderKey; constMusicFilenameSchemeKey E; constVfatSafeKey E;
   constAsciiOnlyKey E; constIgnoreTheKey E; constReplaceSpacesKey E;
   constCollectionNameKey].

(** A line that begins with one of the keys and [=]. *)
Definition recognized (E : Env) (line : string) : bool :=
  existsb (fun key => startsWith line (key +:+ "=")) (recognizedKeys E).

End UmsDevice.

(** ** A sample USB stick, for concrete runs *)

Module SampleUms.
Import UmsDevice.

(** [Utils::cleanPath] as far as the sample needs it: runs of [/]
    become one. *)
Fixpoint collapseSlashes (s : string) : string :=
  match s with
  | EmptyString => EmptyString
  | String c s' =>
      match c, s' with
      | "/"%char, String "/"%char _ => collapseSlashes s'
      | _, _ => String c (collapseSlashes s')
      end
  end.

Definition defaults : DeviceOptions.t :=
  DeviceOptions.mk "%albumartist%/%album%/%track% %title%" true false false false
                   "" "cover.jpg" true false true "ogg" 5.

(** The keys as Cantata names them; no [.cantata] file on the stick. *)
Definition env : Env :=
  mkEnv "music_filenamescheme" "vfat_safe" "ascii_only" "ignore_the" "replace_spaces"
        "/.cantata" "cover.jpg" defaults
        (fun fs file o => (false, o))
        collapseSlashes
        (fun bytes => "6.0 GiB").

(** A mounted stick, as constructed, before [setup] has run. *)
Definition stick : t :=
  mk true (Some (mkAccess true true "/media/usb/"))
     (mkSpace "/media/usb/" 8000000000 2000000000)
     "" (DeviceOptions.set_vfatSafe false defaults) false []
     "Stick (8.0 GiB)" "Stick (8.0 GiB)" false (-1) "".

(** The settings file of the example: the folder, the VFAT key and a
    line [setup] does not know. *)
Definition disk : FileSystem.t :=
  FileSystem.mk
    {[ "/media/usb//.is_audio_player" :=
         ["audio_folder=Music"; "vfat_safe=true"; "podcast_folder=Podcasts"] ]}
    {[ "/media/usb/Music" ]} ∅.

(** The stick unplugged while its cache is being rebuilt. *)
Definition unpluggedWhileCaching : t :=
  mk true None (mkSpace "/media/usb/" 8000000000 2000000000)
     "/media/usb/Music/" defaults true []
     "Stick (8.0 GiB)" "Stick (8.0 GiB)" true 50 "Updating (50%)...".

(** The stick unplugged, no cache rebuild going on. *)
Definition unplugged : t :=
  mk true None (mkSpace "/media/usb/" 8000000000 2000000000)
     "/media/usb/Music/" defaults true []
     "Stick (8.0 GiB)" "Stick (8.0 GiB)" true (-1) "".

(** The stick with every option at its default except [vfatSafe]. *)
Definition vfatOff : t :=
  mk true (Some (mkAccess true true "/media/usb/"))
     (mkSpace "/media/usb/" 8000000000 2000000000)
     "/media/usb/Music/" (DeviceOptions.set_vfatSafe false defaults) true []
     "Stick (8.0 GiB)" "Stick (8.0 GiB)" true (-1) "".

(** The same stick with the naming scheme changed and [vfatSafe] at
    its default. *)
Definition schemeChanged : t :=
  mk true (Some (mkAccess true true "/media/usb/"))
     (mkSpace "/media/usb/" 8000000000 2000000000)
     "/media/usb/Music/" (DeviceOptions.set_scheme "%artist% - %title%" defaults) true []
     "Stick (8.0 GiB)" "Stick (8.0 GiB)" true (-1) "".

End SampleUms.

(** ** Songs, disc metadata and covers *)

Module Song.

(** [Song::Type], as far as it matters here. *)
Inductive Type_ := Standard | Cdda | OtherType.

(** The members of [Song] the devices touch.  [time] is the duration
    in seconds, [size] the size in bytes. *)
Record t := mk {
  file : string;
  title : string;
  artist : string;
  albumartist : string;
  album : string;
  time : Z;
  size : Z;
  type : Type_
}.

(** A default-constructed [Song]. *)
Definition blank : t :=
  mk EmptyString EmptyString EmptyString EmptyString EmptyString 0 0 Standard.

Definition set_file (v : string) (s : t) : t :=
  mk v (title s) (artist s) (albumartist s) (album s) (time s) (size s) (type s).
Definition set_size (v : Z) (s : t) : t :=
  mk (file s) (title s) (artist s) (albumartist s) (album s) (time s) v (type s).

End Song.

Module AudioCdDevice.
Import QString.

Abbreviation Song := Song.t.

(** [CdAlbum], the result of a metadata lookup. *)
Record CdAlbum := mkAlbum {
  a_name : string;
  a_artist : string;
  a_composer : string;
  a_genre : string;
  a_year : Z;
  a_disc : Z;
  a_tracks : list Song;
  a_isDefault : bool
}.

(** [Covers::Image]: whether the image is null, and its file. *)
Record Image := mkImage {
  imgIsNull : bool;
  fileName : string
}.

(** [Device::Status], the codes passed to [actionStatus]. *)
Inductive Status :=
| Ok
| NotConnected
| SongExists
| CodecNotAvailable
| DirCreationFaild
| OtherStatus (code : Z).

Definition isOk (s : Status) : bool :=
  match s with Ok => true | _ => false end.

(** [Encoders::Encoder] *)
Record Encoder := mkEncoder {
  codec : string;
  changeExtension : string -> string
}.

(** The arguments [copySongTo] hands to a new [ExtractJob]. *)
Record ExtractJob := mkJob {
  j_codec : string;
  j_value : Z;
  j_source : string;
  j_dest : string;
  j_song : Song;
  j_cover : string
}.

(** What a slot learns of a running job through [sender()]. *)
Record JobState := mkJobState {
  wasStarted : bool;
  coverCopied : bool
}.

(** The object [sender()] returns in a slot. *)
Inductive Sender :=
| NoSender
| OtherObject
| FileJobObject (j : JobState)
| ExtractJobObject (j : JobState).

(** [qobject_cast<FileJob *>(sender())]; an [ExtractJob] is a
    [FileJob]. *)
Definition asFileJob (s : Sender) : option JobState :=
  match s with
  | FileJobObject j | ExtractJobObject j => Some j
  | _ => None
  end.

(** [qobject_cast<ExtractJob *>(sender())] *)
Definition asExtractJob (s : Sender) : option JobState :=
  match s with
  | ExtractJobObject j => Some j
  | _ => None
  end.

(** Signals emitted by the device and calls it makes on objects
    outside this file, in the order they happen. *)
Inductive Event :=
| ActionStatus (status : Status) (copiedCover : bool)
| Progress (pc : Z)
| JobStop
| JobStart (j : ExtractJob)
| JobFinished
| SetFilePerms (f : string)
| Matches (id : string) (albums : list CdAlbum)
| Updating (id : string) (b : bool)
| Play (tracks : list Song)
| UpdatedDetails (tracks : list Song)
| UpdateStatus
| Lookup (b : bool).

Definition isActionStatus (e : Event) : bool :=
  match e with ActionStatus _ _ => true | _ => false end.
Definition isProgress (e : Event) : bool :=
  match e with Progress _ => true | _ => false end.
Definition isJobStart (e : Event) : bool :=
  match e with JobStart _ => true | _ => false end.

(** The members of [AudioCdDevice] and of its base [Device] that the
    functions below read or write.  [connected] is what [isConnected()]
    returns; [childItems] are the track items below the device. *)
Record t := mk {
  connected : bool;
  id : string;
  device : string;
  devPath : string;
  data : string;
  opts : DeviceOptions.t;
  jobAbortRequested : bool;
  needToFixVa : bool;
  currentDestFile : string;
  currentSong : Song;
  album : string;
  artist : string;
  composer : string;
  genre : string;
  year : Z;
  disc : Z;
  time : Z;
  lookupInProcess : bool;
  autoPlay : bool;
  coverImage : Image;
  update : option (list Song);
  childItems : list Song;
  statusMessage : string;
  detailsString : string
}.

Definition set_jobAbortRequested (v : bool) (d : t) : t :=
  mk (connected d) (id d) (device d) (devPath d) (data d) (opts d) v
     (needToFixVa d) (currentDestFile d) (currentSong d) (album d)
     (artist d) (composer d) (genre d) (year d) (disc d) (time d)
     (lookupInProcess d) (autoPlay d) (coverImage d) (update d)
     (childItems d) (statusMessage d) (detailsString d).
Definition set_needToFixVa (v : bool) (d : t) : t :=
  mk (connected d) (id d) (device d) (devPath d) (data d) (opts d)
     (jobAbortRequested d) v (currentDestFile d) (currentSong d) (album d)
     (artist d) (composer d) (genre d) (year d) (disc d) (time d)
     (lookupInProcess d) (autoPlay d) (coverImage d) (update d)
     (childItems d) (statusMessage d) (detailsString d).
Definition set_currentDestFile (v : string) (d : t) : t :=
  mk (connected d) (id d) (device d) (devPath d) (data d) (opts d)
     (jobAbortRequested d) (needToFixVa d) v (currentSong d) (album d)
     (artist d) (composer d) (genre d) (year d) (disc d) (time d)
     (lookupInProcess d) (autoPlay d) (coverImage d) (update d)
     (childItems d) (statusMessage d) (detailsString d).
Definition set_currentSong (v : Song) (d : t) : t :=
  mk (connected d) (id d) (device d) (devPath d) (data d) (opts d)
     (jobAbortRequested d) (needToFixVa d) (currentDestFile d) v (album d)
     (artist d) (composer d) (genre d) (year d) (disc d) (time d)
     (lookupInProcess d) (autoPlay d) (coverImage d) (update d)
     (childItems d) (statusMessage d) (detailsString d).
Definition set_time (v : Z) (d : t) : t :=
  mk (connected d) (id d) (device d) (devPath d) (data d) (opts d)
     (jobAbortRequested d) (needToFixVa d) (currentDestFile d)
     (currentSong d) (album d) (artist d) (composer d) (genre d) (year d)
     (disc d) v (lookupInProcess d) (autoPlay d) (coverImage d) (update d)
     (childItems d) (statusMessage d) (detailsString d).
Definition set_lookupInProcess (v : bool) (d : t) : t :=
  mk (connected d) (id d) (device d) (devPath d) (data d) (opts d)
     (jobAbortRequested d) (needToFixVa d) (currentDestFile d)
     (currentSong d) (album d) (artist d) (composer d) (genre d) (year d)
     (disc d) (time d) v (autoPlay d) (coverImage d) (update d)
     (childItems d) (statusMessage d) (detailsString d).
Definition set_autoPlay (v : bool) (d : t) : t :=
  mk (connected d) (id d) (device d) (devPath d) (data d) (opts d)
     (jobAbortRequested d) (needToFixVa d) (currentDestFile d)
     (currentSong d) (album d) (artist d) (composer d) (genre d) (year d)
     (disc d) (time d) (lookupInProcess d) v (coverImage d) (update d)
     (childItems d) (statusMessage d) (detailsString d).
Definition set_coverImage (v : Image) (d : t) : t :=
  mk (connected d) (id d) (device d) (devPath d) (data d) (opts d)
     (jobAbortRequested d) (needToFixVa d) (currentDestFile d)
     (currentSong d) (album d) (artist d) (composer d) (genre d) (year d)
     (disc d) (time d) (lookupInProcess d) (autoPlay d) v (update d)
     (childItems d) (statusMessage d) (detailsString d).
Definition set_childItems (v : list Song) (d : t) : t :=
  mk (connected d) (id d) (device d) (devPath d) (data d) (opts d)
     (jobAbortRequested d) (needToFixVa d) (currentDestFile d)
     (currentSong d) (album d) (artist d) (composer d) (genre d) (year d)
     (disc d) (time d) (lookupInProcess d) (autoPlay d) (coverImage d)
     (update d) v (statusMessage d) (detailsString d).

(** The collaborators of the device.  [receiveUpdating] stands for the
    receivers of the [updating] signal, which run before [emit]
    returns and install the staged update ([Device::applyUpdate],
    outside this file): it gives the children and the staged update
    they leave. *)
Record Env := mkEnv {
  isVariousArtists : Song -> bool;
  fixVariousArtists : Song -> Song;
  revertVariousArtists : Song -> Song;
  songExists : Song -> bool;
  mpdOpts : DeviceOptions.t;
  getEncoder : string -> Encoder;
  mpdDir : string;
  isMopidy : bool;
  encodePath : string -> string;
  getDir : string -> string;
  absolutePath : string -> string;
  createWorldReadableDir : FileSystem.t -> string -> string -> bool * FileSystem.t;
  requestImage : Song -> bool -> Image;
  trTracks : nat -> Z -> string;
  constCddaProtocol : string;
  cdAuto : bool;
  receiveUpdating : t -> list Song * option (list Song)
}.

(** [0xFFFFFFFF], the value of [time] that stands for "not summed
    yet". *)
Definition sentinel : Z := 0xFFFFFFFF.

(** Arithmetic on [quint32]. *)
Definition wrap32 (z : Z) : Z := z mod 2 ^ 32.

Definition constBytesPerSecond : Z := 44100 * 4.

(** Arithmetic on [int]: the value kept in 32 bits, two's complement;
    the identity on the range of [int]. *)
Definition wrapInt (z : Z) : Z := (z + 2 ^ 31) mod 2 ^ 32 - 2 ^ 31.

Definition set_update (v : option (list Song)) (d : t) : t :=
  mk (connected d) (id d) (device d) (devPath d) (data d) (opts d)
     (jobAbortRequested d) (needToFixVa d) (currentDestFile d) (currentSong d)
     (album d) (artist d) (composer d) (genre d) (year d) (disc d) (time d)
     (lookupInProcess d) (autoPlay d) (coverImage d) v (childItems d)
     (statusMessage d) (detailsString d).

Definition constAnyDev : string := "-".

Definition marker : string := "/gvfs/cdda:host=".

(** [AudioCdDevice::getDevice] *)
Definition getDevice (url : QUrl.t) : string :=
  if String.eqb "cdda" (QUrl.scheme url) then
    if QUrl.hasQueryItem url "dev" then QUrl.queryItemValue url "dev"
    else constAnyDev
  else
    let path := QUrl.path url in
    if startsWith path "/run/user/" then
      let pos := lastIndexOf path marker in
      if negb (-1 =? pos)
      then "/dev/" +:+ mid path (Z.to_nat (pos + Z.of_nat (size marker)))
      else EmptyString
    else EmptyString.

(** [AudioCdDevice::coverUrl]; [constCddaProtocol] is [Song]'s. *)
Definition coverUrl (constCddaProtocol udi : string) : string :=
  let udi := replaceChar " "%char "_"%char udi in
  let udi := replaceChar (ch 10) "_"%char udi in
  let udi := replaceChar (ch 9) "_"%char udi in
  let udi := replaceChar "/"%char "_"%char udi in
  let udi := replaceChar ":"%char "_"%char udi in
  constCddaProtocol +:+ udi.

(** The [device] the constructor works out: the block device when
    Solid knows it, else the last part of the UDI up to its first
    colon. *)
Definition deviceOf (block : option string) (udi : string) : string :=
  match block with
  | Some dev => dev
  | None =>
      match last (splitSkipEmpty "/"%char udi) with
      | Some part =>
          match fields ":"%char part with
          | first :: _ => "/dev/" +:+ first
          | [] => EmptyString
          end
      | None => EmptyString
      end
  end.

(** [AudioCdDevice::AudioCdDevice].  [base] holds the members as the
    constructor of [Device] leaves them; the initialiser list and the
    body then set the device's own.  The icon, the drive handle, the
    lookup service made by [connectService] and the subscription to the
    covers are not among the members modelled. *)
Definition construct (E : Env) (base : t) (block : option string)
           (udi : string) : t * list Event :=
  let dev := deviceOf block udi in
  let found := negb (isEmpty dev) in
  (mk (connected base) (id base) dev
      (if found then constCddaProtocol E +:+ dev +:+ "/" else EmptyString)
      (data base) (opts base) (jobAbortRequested base) (needToFixVa base)
      (currentDestFile base) (currentSong base)
      EmptyString EmptyString EmptyString EmptyString
      0 0 sentinel found false (mkImage true EmptyString)
      (update base) (childItems base)
      (if found then "Reading disc" else statusMessage base)
      (if found then "Reading disc" else EmptyString),
   if found then [Lookup (cdAuto E)] else []).

(** [AudioCdDevice::copySongTo] *)
Definition copySongTo (E : Env) (fs : FileSystem.t) (d : t) (s : Song)
           (musicPath : string) (overwrite copyCover : bool)
  : t * FileSystem.t * list Event :=
  let d := set_jobAbortRequested false d in
  if negb (connected d) then (d, fs, [ActionStatus NotConnected false]) else
  let d := set_needToFixVa
             (DeviceOptions.fixVariousArtists (opts d) && isVariousArtists E s) d in
  let check := if needToFixVa d then fixVariousArtists E s else s in
  if negb overwrite && songExists E check
  then (d, fs, [ActionStatus SongExists false]) else
  let mpdOpts := mpdOpts E in
  let encoder := getEncoder E (DeviceOptions.transcoderCodec mpdOpts) in
  if isEmpty (codec encoder)
  then (d, fs, [ActionStatus CodecNotAvailable false]) else
  let source := device d in
  let baseDir := mpdDir E in
  let d := set_currentDestFile (changeExtension encoder (baseDir +:+ musicPath)) d in
  let dir := getDir E (currentDestFile d) in
  let '(made, fs') :=
    if FileSystem.dirExists fs dir then (true, fs)
    else createWorldReadableDir E fs (absolutePath E dir) baseDir in
  if negb made then (d, fs', [ActionStatus DirCreationFaild false]) else
  let d := set_currentSong s d in
  let job := mkJob (codec encoder) (DeviceOptions.transcoderValue mpdOpts)
                   source (currentDestFile d) (currentSong d)
                   (if copyCover then fileName (coverImage d) else EmptyString) in
  (d, fs', [JobStart job]).

(** The loop of [totalTime]: [time+=song().time] in [quint32]. *)
Definition sumTimes (songs : list Song) : Z :=
  fold_left (fun acc s => wrap32 (acc + Song.time s)) songs 0.

(** [AudioCdDevice::totalTime]: the device afterwards and the value
    returned. *)
Definition totalTime (d : t) : t * Z :=
  if sentinel =? time d
  then let d' := set_time (sumTimes (childItems d)) d in (d', time d')
  else (d, time d).

(** [AudioCdDevice::percent] *)
Definition percent (d : t) (sender : Sender) (pc : Z) : list Event :=
  if jobAbortRequested d && negb (100 =? pc) then
    match asFileJob sender with
    | Some _ => [JobStop]
    | None => []
    end
  else [Progress pc].

(** [AudioCdDevice::copySongToResult].  [FileJob::finished] and
    [Utils::setFilePerms] are recorded as events. *)
Definition copySongToResult (E : Env) (fs : FileSystem.t) (d : t)
           (sender : Sender) (status : Status)
  : t * FileSystem.t * list Event :=
  let job := asExtractJob sender in
  if jobAbortRequested d then
    let started := match job with Some j => wasStarted j | None => false end in
    (d,
     if started && FileSystem.exists_ fs (currentDestFile d)
     then FileSystem.remove fs (currentDestFile d) else fs,
     [JobFinished])
  else if negb (isOk status) then
    (d, fs, [JobFinished; ActionStatus status false])
  else
    let file := mid (currentDestFile d) (size (mpdDir E)) in
    let file := if isMopidy E then encodePath E file else file in
    let song := Song.set_file file (currentSong d) in
    let song := if needToFixVa d then revertVariousArtists E song else song in
    (set_currentSong song d, fs,
     [JobFinished; SetFilePerms (currentDestFile d);
      ActionStatus Ok (match job with Some j => coverCopied j | None => false end)]).

(** The track list [dequeue], [playTracks] and [updateDetails] build:
    the children with [path()], the [cdda://] prefix of the device,
    put before each file name. *)
Definition tracksOf (d : t) : list Song :=
  List.map (fun s => Song.set_file (devPath d +:+ Song.file s) s) (childItems d).

(** [AudioCdDevice::playTracks] *)
Definition playTracks (d : t) : list Event :=
  match tracksOf d with [] => [] | tracks => [Play tracks] end.

(** [AudioCdDevice::updateDetails] *)
Definition updateDetails (d : t) : list Event :=
  match tracksOf d with [] => [] | tracks => [UpdatedDetails tracks] end.

(** [AudioCdDevice::setCover(const Covers::Image &)] *)
Definition setCover (d : t) (img : Image) : t * list Event :=
  (set_coverImage img d, [UpdateStatus]).

(** The first part of [AudioCdDevice::setDetails], up to
    [detailsString=...]: the device as it is when [updating] is
    emitted.  [s.time*constBytesPerSecond] and [totalDuration] are
    computed in [int]. *)
Definition detailsInstalled (E : Env) (d : t) (a : CdAlbum) : t :=
  let items :=
    List.map (fun s => Song.set_size (wrapInt (Song.time s * constBytesPerSecond)) s)
             (a_tracks a) in
  let totalDuration :=
    fold_left (fun acc s => wrapInt (acc + Song.time s)) (a_tracks a) 0 in
  mk (connected d) (id d) (device d) (devPath d) (a_artist a) (opts d)
     (jobAbortRequested d) (needToFixVa d) (currentDestFile d) (currentSong d)
     (a_name a) (a_artist a) (a_composer a) (a_genre a) (a_year a) (a_disc a)
     (time d) false (autoPlay d) (coverImage d) (Some items) (childItems d)
     EmptyString (trTracks E (length (a_tracks a)) totalDuration).

(** [AudioCdDevice::setDetails].  The receivers of
    [updating(id(), false)] run inside the [emit]; [playTracks] and
    [updateDetails] then read the children they left. *)
Definition setDetails (E : Env) (d : t) (a : CdAlbum) : t * list Event :=
  let differentAlbum :=
    negb (String.eqb (album d) (a_name a)) || negb (String.eqb (artist d) (a_artist a)) in
  let d0 := detailsInstalled E d a in
  let '(kids, staged) := receiveUpdating E d0 in
  let d1 := set_update staged (set_childItems kids d0) in
  let '(d2, coverEvents) :=
    if differentAlbum && negb (a_isDefault a) then
      let s := Song.mk (coverUrl (constCddaProtocol E) (id d1)) (id d1)
                       (artist d1) (artist d1) (album d1) 0 0 Song.Cdda in
      let img := requestImage E s true in
      if negb (imgIsNull img) then setCover d1 img else (d1, [])
    else (d1, []) in
  if autoPlay d2
  then let d3 := set_autoPlay false d2 in
       (d3, [Updating (id d) false] ++ coverEvents ++ playTracks d3)
  else (d2, [Updating (id d) false] ++ coverEvents ++ updateDetails d2).

(** [AudioCdDevice::cdMatches] *)
Definition cdMatches (E : Env) (d : t) (albums : list CdAlbum) : t * list Event :=
  let d := set_lookupInProcess false d in
  if (1 =? length albums)%nat then
    match albums with
    | a :: _ => setDetails E d a
    | [] => (d, [])
    end
  else if (1 <? length albums)%nat then (d, [Matches (id d) albums])
  else (d, []).

(** The song [copySongTo] looks up in the collection. *)
Definition checkedSong (E : Env) (d : t) (s : Song) : Song :=
  if DeviceOptions.fixVariousArtists (opts d) && isVariousArtists E s
  then fixVariousArtists E s else s.

(** The durations of a track list, added up as integers. *)
Definition durationSum (songs : list Song) : Z :=
  foldr Z.add 0 (List.map Song.time songs).

(** The tracks of an audio CD: at most 99, each with a duration that
    fits the 16 bits [Song] keeps for it. *)
Definition audioCdTracks (songs : list Song) : Prop :=
  (length songs <= 99)%nat
  /\ Forall (fun s => 0 <= Song.time s <= 65535) songs.

End AudioCdDevice.

(** ** A sample audio CD set-up, for concrete runs *)

Module Sample.
Import AudioCdDevice.

Definition defaults : DeviceOptions.t :=
  DeviceOptions.mk "%albumartist%/%album%/%track% %title%" true false false false
                   "" "cover.jpg" true false true "ogg" 5.

(** An MPD collection under [/music/] that already holds the song
    called "Known"; an encoder that writes [.ogg] files; directories
    can always be created; the staged update becomes the children when
    [updating] is received. *)
Definition env : Env :=
  mkEnv (fun s => String.eqb (Song.albumartist s) "Various Artists")
        (fun s => s)
        (fun s => s)
        (fun s => String.eqb (Song.title s) "Known")
        defaults
        (fun c => mkEncoder c (fun f => f +:+ ".ogg"))
        "/music/"
        false
        (fun f => f)
        (fun f => "/music/")
        (fun f => f)
        (fun fs dir base =>
           (true, FileSystem.mk (FileSystem.files fs) ({[dir]} ∪ FileSystem.dirs fs)
                                (FileSystem.unwritable fs)))
        (fun s fetch => mkImage true "")
        (fun n total => "Tracks")
        "cdda://"
        true
        (fun d => (match update d with Some items => items | None => childItems d end,
                   None)).

Definition song (title : string) (seconds : Z) : Song :=
  Song.mk "track.wav" title "Artist" "Artist" "Album" seconds 0 Song.Cdda.

Definition emptyDisk : FileSystem.t := FileSystem.mk ∅ ∅ ∅.

(** The members as [Device]'s constructor leaves them. *)
Definition base : t :=
  mk true "/org/freedesktop/UDisks2/block_devices/sr0" "" "" "Audio CD" defaults
     false false "" Song.blank "" "" "" "" 0 0 0 false false (mkImage true "")
     None [] "" "".

(** A freshly constructed device for [/dev/sr0]. *)
Definition cd : t := fst (construct env base (Some "/dev/sr0") "").

Definition albumOf (name : string) (tracks : list Song) : CdAlbum :=
  mkAlbum name "Artist" "" "" 2000 1 tracks false.

(** A device whose copy of a track into [/music/a.ogg] was aborted
    after the file had been started. *)
Definition abortedCd : t :=
  set_jobAbortRequested true
    (set_currentDestFile "/music/a.ogg" cd).

Definition diskWithPartialFile : FileSystem.t :=
  FileSystem.mk {[ "/music/a.ogg" := [] ]} {[ "/music/" ]} ∅.

(** Two tracks, of 120 and of 200 seconds. *)
Definition twoTracks : t :=
  set_childItems
    [song "One" 120; song "Two" 200] cd.

End Sample.

(** ** Further string notions used in the statements *)

Module Text.
Import QString.

(** Whether the character [c] occurs in [s]. *)
Fixpoint hasChar (c : ascii) (s : string) : bool :=
  match s with
  | EmptyString => false
  | String a s' => Ascii.eqb a c || hasChar c s'
  end.

(** The text of [s] up to its first [sep], all of [s] without one. *)
Definition upTo (sep : ascii) (s : string) : string :=
  fst (span (Ascii.eqb sep) s).

(** [s] with a [/] put behind it unless it ends with one. *)
Definition withSlash (s : string) : string :=
  if endsWithChar s "/"%char then s else s +:+ "/".

End Text.

(** ** The remaining members of AudioCdDevice *)

Module AudioCdMore.
Import QString AudioCdDevice.

(** [AudioCdDevice::isAudioDevice] *)
Definition isAudioDevice (d : t) (dev : string) : bool :=
  String.eqb constAnyDev dev || String.eqb (device d) dev.

(** [AudioCdDevice::rescan]; [connectService] touches no member
    modelled here. *)
Definition rescan (d : t) (useCddb : bool) : t * list Event :=
  if negb (isEmpty (device d))
  then (set_lookupInProcess true d, [Lookup true])
  else (d, []).

(** [AudioCdDevice::autoplay] *)
Definition autoplay (d : t) : t * list Event :=
  if negb (0 =? length (childItems d))%nat
  then (d, playTracks d)
  else (set_autoPlay true d, []).

(** [AudioCdDevice::dequeue]: the track lists handed to
    [PlayQueueModel::remove], one per call. *)
Definition dequeue (d : t) : list (list Song) :=
  match tracksOf d with [] => [] | tracks => [tracks] end.

(** [AudioCdDevice::~AudioCdDevice], its effect on the disk.
    [cacheDir] is [Utils::cacheDir(Covers::constCddaCoverDir, false)]. *)
Definition destroy (cacheDir : string) (fs : FileSystem.t) (d : t) : FileSystem.t :=
  if negb (isEmpty (fileName (coverImage d)))
     && startsWith (fileName (coverImage d)) cacheDir
  then FileSystem.remove fs (fileName (coverImage d))
  else fs.

(** [AudioCdDevice::setCover(const Song &, const QImage &, const
    QString &)], the slot behind the [cover] signal of [Covers].
    [isCdda] is [Song::isCdda]; the image arrives as
    [Covers::Image(img, file)]. *)
Definition setCoverFor (isCdda : Song -> bool) (d : t) (song : Song) (img : Image)
  : t * list Event :=
  if isCdda song
     && String.eqb (Song.albumartist song) (artist d)
     && String.eqb (Song.album song) (album d)
  then setCover d img
  else (d, []).

(** The collaborators with another answer to [songExists]. *)
Definition withSongExists (f : Song -> bool) (E : Env) : Env :=
  mkEnv (isVariousArtists E) (fixVariousArtists E) (revertVariousArtists E) f
        (mpdOpts E) (getEncoder E) (mpdDir E) (isMopidy E) (encodePath E)
        (getDir E) (absolutePath E) (createWorldReadableDir E) (requestImage E)
        (trTracks E) (constCddaProtocol E) (cdAuto E) (receiveUpdating E).

Definition isPlay (e : Event) : bool :=
  match e with Play _ => true | _ => false end.
Definition isUpdatedDetails (e : Event) : bool :=
  match e with UpdatedDetails _ => true | _ => false end.

(** The status codes [copySongTo] itself reports. *)
Definition isCopyFailure (e : Event) : bool :=
  match e with
  | ActionStatus NotConnected false
  | ActionStatus SongExists false
  | ActionStatus CodecNotAvailable false
  | ActionStatus DirCreationFaild false => true
  | _ => false
  end.

End AudioCdMore.

(** ** The remaining members of UmsDevice *)

Module UmsMore.
Import QString UmsDevice.

Definition set_unusedParams (u : list string) (d : t) : t :=
  mk (solidDevValid d) (access d) (spaceInfo d) (audioFolder d) (opts d)
     (configured d) u (defaultName d) (data d) (scanned d) (cacheProgress d)
     (statusMessage d).

Definition set_spaceInfo (s : SpaceInfo) (d : t) : t :=
  mk (solidDevValid d) (access d) s (audioFolder d) (opts d)
     (configured d) (unusedParams d) (defaultName d) (data d) (scanned d)
     (cacheProgress d) (statusMessage d).

Definition set_statusMessage (m : string) (d : t) : t :=
  mk (solidDevValid d) (access d) (spaceInfo d) (audioFolder d) (opts d)
     (configured d) (unusedParams d) (defaultName d) (data d) (scanned d)
     (cacheProgress d) m.

(** What the reading loop of [setup] leaves in its variables, for a
    connected device. *)
Definition parsed (E : Env) (fs : FileSystem.t) (d : t) : Parsed :=
  let path := path (spaceInfo d) in
  let p0 := mkParsed path EmptyString
                     (snd (readOpts E fs (path +:+ constCantataSettingsFile E) (opts d)))
                     (unusedParams d) in
  match FileSystem.files fs !! settingsFile d with
  | Some lines => fold_left (setupLine E fs path) lines p0
  | None => p0
  end.

(** A line that is not an [audio_folder] line. *)
Definition notFolderLine (line : string) : bool :=
  negb (startsWith line (constMusicFolderKey +:+ "=")).

(** The four boolean naming options kept in the settings file. *)
Definition flags (o : DeviceOptions.t) : bool * bool * bool * bool :=
  (DeviceOptions.vfatSafe o, DeviceOptions.asciiOnly o,
   DeviceOptions.ignoreThe o, DeviceOptions.replaceSpaces o).

(** What the remaining members need beside [Env]: [Utils::fixPath],
    the comparison of two [DeviceOptions], and what
    [spaceInfo.setPath] makes of the space information. *)
Record Helpers := mkHelpers {
  fixPath : string -> string;
  optsEq : DeviceOptions.t -> DeviceOptions.t -> bool;
  setPath : SpaceInfo -> string -> SpaceInfo
}.

(** Signals emitted and calls made on the base classes, in order.
    [RescanDefault] is [rescan()] with its default argument. *)
Inductive Call :=
| Signal (e : Event)
| Clear
| ConfigurationChanged
| SaveCache
| RemoveCache
| WriteOpts (file : string) (o : DeviceOptions.t)
| RescanDefault.

Definition isRescan (c : Call) : bool :=
  match c with Signal (Rescan _) | RescanDefault => true | _ => false end.
Definition isRenamed (c : Call) : bool :=
  match c with Signal Renamed => true | _ => false end.
Definition isWriteOpts (c : Call) : bool :=
  match c with WriteOpts _ _ => true | _ => false end.

(** [UmsDevice::connectionStateChanged].  [clear] is [Device]'s. *)
Definition connectionStateChanged (E : Env) (X : Helpers) (fs : FileSystem.t) (d : t)
  : t * list Call :=
  if isConnected d then
    let filePath := match access d with Some a => filePath a | None => EmptyString end in
    let d := set_spaceInfo (setPath X (spaceInfo d) filePath) d in
    let '(d, events) := setup E fs d in
    if DeviceOptions.autoScan (opts d) || scanned d
    then (d, List.map Signal events ++ [Signal (Rescan false)])
    else (set_statusMessage "Not Scanned" d, List.map Signal events)
  else (d, [Clear]).

(** [UmsDevice::saveProperties(const QString &, const DeviceOptions &)].
    [saveCache], [removeCache] and [writeOpts] are [FsDevice]'s: what
    they do to the disk is not known here, and they are recorded as
    calls, in the order of the source, also on a device that is not
    connected.  The file system returned is [fs] as [saveOptions]
    leaves it; it says nothing of the cache file nor of the file of
    [writeOpts]. *)
Definition saveProperties (E : Env) (X : Helpers) (fs : FileSystem.t) (d : t)
           (newPath : string) (newOpts : DeviceOptions.t)
  : t * FileSystem.t * list Call :=
  let nPath := fixPath X newPath in
  if configured d && optsEq X (opts d) newOpts && String.eqb nPath (audioFolder d)
  then (d, fs, []) else
  let newName := if isEmpty (DeviceOptions.name newOpts) then defaultName d
                 else DeviceOptions.name newOpts in
  let diffName := negb (String.eqb (DeviceOptions.name (opts d)) newName) in
  let diffCacheSettings :=
    negb (Bool.eqb (DeviceOptions.useCache (opts d)) (DeviceOptions.useCache newOpts)) in
  let d1 := mk (solidDevValid d) (access d) (spaceInfo d) (audioFolder d) newOpts
               true (unusedParams d) (defaultName d)
               (if diffName then newName else data d)
               (scanned d) (cacheProgress d) (statusMessage d) in
  let calls :=
    (if diffCacheSettings
     then (if DeviceOptions.useCache newOpts then [SaveCache] else [RemoveCache])
     else [])
    ++ [ConfigurationChanged] in
  let oldPath := audioFolder d1 in
  if negb (isConnected d1) then (d1, fs, calls) else
  let d2 := mk (solidDevValid d1) (access d1) (spaceInfo d1) nPath (opts d1)
               (configured d1) (unusedParams d1) (defaultName d1) (data d1)
               (scanned d1) (cacheProgress d1) (statusMessage d1) in
  (d2, saveOptions E fs d2,
   calls
   ++ [WriteOpts (path (spaceInfo d2) +:+ constCantataSettingsFile E) (opts d2)]
   ++ (if negb (String.eqb oldPath (audioFolder d2)) then [RescanDefault] else [])
   ++ (if diffName then [Signal Renamed] else [])).

(** The name [saveProperties] shows for the new options: [newName]. *)
Definition shownName (d : t) (newOpts : DeviceOptions.t) : string :=
  if isEmpty (DeviceOptions.name newOpts) then defaultName d
  else DeviceOptions.name newOpts.

(** [UmsDevice::saveProperties()] *)
Definition saveCurrentProperties (E : Env) (X : Helpers) (fs : FileSystem.t) (d : t)
  : t * FileSystem.t * list Call :=
  saveProperties E X fs d (audioFolder d) (opts d).

End UmsMore.

(** Further sample values. *)

Module SampleMore.
Import UmsDevice UmsMore.

(** No path fixing, options compared member by member on what the
    settings show, space information that follows the path. *)
Definition helpers : Helpers :=
  mkHelpers (fun p => Text.withSlash p)
            (fun a b => String.eqb (DeviceOptions.scheme a) (DeviceOptions.scheme b)
                        && String.eqb (DeviceOptions.name a) (DeviceOptions.name b)
                        && bool_decide (flags a = flags b)
                        && Bool.eqb (DeviceOptions.useCache a) (DeviceOptions.useCache b)
                        && Bool.eqb (DeviceOptions.autoScan a) (DeviceOptions.autoScan b))
            (fun s p => mkSpace p (size s) (used s)).

(** The default options with a collection name and the cache turned
    off. *)
Definition namedWithoutCache : DeviceOptions.t :=
  DeviceOptions.mk "%albumartist%/%album%/%track% %title%" true false false false
                   "My stick" "cover.jpg" true false false "ogg" 5.

(** The sample stick after [setup], set to scan by itself. *)
Definition autoScanStick : t :=
  mk true (Some (mkAccess true true "/media/usb/"))
     (mkSpace "/media/usb/" 8000000000 2000000000)
     "/media/usb/Music/"
     (DeviceOptions.mk "%albumartist%/%album%/%track% %title%" true false true false
                       "" "cover.jpg" true true true "ogg" 5)
     true ["podcast_folder=Podcasts"]
     "Stick (8.0 GiB)" "Stick (8.0 GiB)" true (-1) "".

(** A disk where only [MUSIC] exists and no settings are stored. *)
Definition plainDisk : FileSystem.t :=
  FileSystem.mk ∅ {[ "/media/usb/MUSIC" ]} ∅.

End SampleMore.

(** * Properties *)

(** ** Facts about the string operations *)

Section StringFacts.
Import QString.

Lemma startsWith_app (p s : string) : startsWith (p +:+ s) p = true.
Proof.
  induction p as [|a p IH]; simpl; [reflexivity|].
  rewrite Ascii.eqb_refl. exact IH.
Qed.

Lemma startsWith_app_false (l p q : string) :
  startsWith l p = false -> startsWith l (p +:+ q) = false.
Proof.
  revert l. induction p as [|a p IH]; intros l H; [discriminate H|].
  destruct l as [|b l]; [reflexivity|].
  change (startsWith (String b l) (String a (p +:+ q)) = false).
  cbn [startsWith] in *. destruct (Ascii.eqb a b); [apply IH; exact H | reflexivity].
Qed.

Lemma mid_app (p s : string) (k : nat) :
  mid (p +:+ s) (String.length p + k) = mid s k.
Proof. induction p as [|a p IH]; simpl; [reflexivity | exact IH]. Qed.

Lemma mid_app_0 (p s : string) : mid (p +:+ s) (String.length p) = s.
Proof.
  rewrite <- (Nat.add_0_r (String.length p)). rewrite mid_app. reflexivity.
Qed.

(** No occurrence at all: the search fails. *)
Lemma lastIndexOf_from_none (m s : string) :
  (forall k, startsWith (mid s k) m = false) ->
  forall i, lastIndexOf_from s m i = -1.
Proof.
  induction s as [|c s IH]; intros Hno i.
  - simpl. pose proof (Hno 0%nat) as H0. simpl in H0.
    change (startsWith EmptyString m) with (startsWith "" m). rewrite H0. reflexivity.
  - cbn [lastIndexOf_from].
    rewrite IH by (intros k; exact (Hno (S k))).
    rewrite Z.eqb_refl. pose proof (Hno 0%nat) as H0. simpl in H0.
    rewrite H0. reflexivity.
Qed.

(** An occurrence at the head and none later: the head is found. *)
Lemma lastIndexOf_from_head (m s : string) (i : Z) :
  startsWith s m = true ->
  (forall k, startsWith (mid s (S k)) m = false) ->
  lastIndexOf_from s m i = i.
Proof.
  destruct s as [|c s]; intros Hhead Hlater.
  - simpl. simpl in Hhead. rewrite Hhead. reflexivity.
  - cbn [lastIndexOf_from].
    rewrite lastIndexOf_from_none by (intros k; exact (Hlater k)).
    rewrite Z.eqb_refl, Hhead. reflexivity.
Qed.

(** The last occurrence is found wherever it starts. *)
Lemma lastIndexOf_from_last (m pre s : string) :
  startsWith s m = true ->
  (forall k, startsWith (mid s (S k)) m = false) ->
  forall i, 0 <= i ->
  lastIndexOf_from (pre +:+ s) m i = i + Z.of_nat (String.length pre).
Proof.
  intros Hhead Hlater. induction pre as [|c pre IH]; intros i Hi.
  - simpl. rewrite Z.add_0_r. apply lastIndexOf_from_head; assumption.
  - change (String c pre +:+ s) with (String c (pre +:+ s)).
    cbn [lastIndexOf_from]. rewrite IH by lia.
    destruct (Z.eqb_spec (i + 1 + Z.of_nat (String.length pre)) (-1)) as [E|_]; [lia|].
    cbn [String.length]. lia.
Qed.

(** The marker of [getDevice] cannot overlap itself: behind an
    occurrence, the next one starts after its end. *)
Lemma marker_no_overlap (name : string) :
  (forall k, startsWith (mid name k) AudioCdDevice.marker = false) ->
  forall k, startsWith (mid (AudioCdDevice.marker +:+ name) (S k)) AudioCdDevice.marker = false.
Proof.
  intros Hname k.
  do 15 (destruct k as [|k]; [reflexivity|]).
  exact (Hname k).
Qed.

End StringFacts.

(** ** AudioCdDevice::getDevice *)

(** C8. For a URL of scheme [cdda], [getDevice] returns the value of the
    [dev] query item when there is one and the "any device" marker "-"
    when there is none; so [cdda:///?dev=/dev/sr1] gives [/dev/sr1] and
    a bare [cdda://] gives "-".  For a URL of another scheme whose path
    starts with [/run/user/] and reads [<pre>/gvfs/cdda:host=<name>],
    [<name>] being what follows the marker's last occurrence, it
    returns [/dev/<name>]. *)
Theorem getDevice_cdda_and_gvfs :
  (forall url : QUrl.t,
      QUrl.scheme url = "cdda" ->
      (QUrl.hasQueryItem url "dev" = true ->
       AudioCdDevice.getDevice url = QUrl.queryItemValue url "dev")
      /\ (QUrl.hasQueryItem url "dev" = false ->
          AudioCdDevice.getDevice url = AudioCdDevice.constAnyDev))
  /\ AudioCdDevice.constAnyDev = "-"
  /\ AudioCdDevice.getDevice (QUrl.fromString "cdda:///?dev=/dev/sr1") = "/dev/sr1"
  /\ AudioCdDevice.getDevice (QUrl.fromString "cdda://") = "-"
  /\ (forall (url : QUrl.t) (pre name : string),
         QUrl.scheme url <> "cdda" ->
         QString.startsWith (QUrl.path url) "/run/user/" = true ->
         QUrl.path url = pre +:+ AudioCdDevice.marker +:+ name ->
         (forall k, QString.startsWith (QString.mid name k) AudioCdDevice.marker = false) ->
         AudioCdDevice.getDevice url = "/dev/" +:+ name).
Proof.
  split; [|split; [reflexivity|split; [reflexivity|split; [reflexivity|]]]].
  - intros url Hs. unfold AudioCdDevice.getDevice. rewrite Hs. simpl.
    split; intros ->; reflexivity.
  - intros url pre name Hs Hrun Hpath Hname.
    unfold AudioCdDevice.getDevice.
    destruct (String.eqb_spec "cdda" (QUrl.scheme url)) as [E|_]; [congruence|].
    rewrite Hrun. cbv zeta. unfold QString.lastIndexOf. rewrite Hpath.
    rewrite lastIndexOf_from_last;
      [ | apply startsWith_app | apply marker_no_overlap; exact Hname | lia ].
    destruct (Z.eqb_spec (-1) (0 + Z.of_nat (String.length pre))) as [E|_]; [lia|].
    cbn [negb]. f_equal.
    replace (Z.to_nat (0 + Z.of_nat (String.length pre)
                       + Z.of_nat (QString.size AudioCdDevice.marker)))
      with (String.length pre + String.length AudioCdDevice.marker)%nat
      by (unfold QString.size; lia).
    rewrite mid_app. apply mid_app_0.
Qed.

Lemma getDevice_cdda_and_gvfs_witness :
  AudioCdDevice.getDevice
    (QUrl.mk "file" "/run/user/1000/gvfs/cdda:host=sr0" "") = "/dev/sr0".
Proof.
  apply (proj2 (proj2 (proj2 (proj2 getDevice_cdda_and_gvfs)))
           (QUrl.mk "file" "/run/user/1000/gvfs/cdda:host=sr0" "")
           "/run/user/1000" "sr0").
  - discriminate.
  - reflexivity.
  - reflexivity.
  - intros k. do 4 (destruct k as [|k]; [reflexivity|]). reflexivity.
Defined.

(** ** AudioCdDevice: copying a track *)

Section CopySong.
Import AudioCdDevice.
Variable E : Env.

(** C3. On a connected device, [copySongTo] with [overwrite=false]
    for a song that, after the various-artists normalisation (applied
    when the option is on and the song is a various-artists track),
    exists in the collection emits [SongExists] and nothing else: no
    job is created or started and the disk is left alone. *)
Theorem copySongTo_existing_song_rejected
        (fs : FileSystem.t) (d : t) (s : Song) (musicPath : string) (copyCover : bool) :
  connected d = true ->
  songExists E (checkedSong E d s) = true ->
  let '(d', fs', events) := copySongTo E fs d s musicPath false copyCover in
  events = [ActionStatus SongExists false]
  /\ List.filter isJobStart events = []
  /\ fs' = fs
  /\ currentDestFile d' = currentDestFile d
  /\ currentSong d' = currentSong d.
Proof.
  intros Hconn Hexists. unfold copySongTo, checkedSong in *.
  destruct d; simpl in *. rewrite Hconn. simpl.
  destruct (DeviceOptions.fixVariousArtists _ && isVariousArtists E s);
    simpl; rewrite Hexists; simpl; repeat split; reflexivity.
Qed.

(** C4. When the completion handler runs with the abort flag set, the
    partially written destination file is deleted if the sender is an
    extraction job that had started and the file exists, the disk is
    otherwise untouched, and no [actionStatus] is emitted, neither
    [Ok] nor a failure. *)
Theorem copySongToResult_aborted
        (fs : FileSystem.t) (d : t) (sender : Sender) (status : Status) :
  jobAbortRequested d = true ->
  let '(d', fs', events) := copySongToResult E fs d sender status in
  List.filter isActionStatus events = []
  /\ d' = d
  /\ (forall j, asExtractJob sender = Some j -> wasStarted j = true ->
                FileSystem.exists_ fs (currentDestFile d) = true ->
                fs' = FileSystem.remove fs (currentDestFile d)
                /\ FileSystem.exists_ fs' (currentDestFile d) = false)
  /\ ((forall j, asExtractJob sender = Some j -> wasStarted j = false) -> fs' = fs)
  /\ (FileSystem.exists_ fs (currentDestFile d) = false -> fs' = fs).
Proof.
  intros Habort. unfold copySongToResult. rewrite Habort.
  split; [reflexivity|]. split; [reflexivity|]. split; [|split].
  - intros j -> Hstarted Hex. rewrite Hstarted, Hex. simpl. split; [reflexivity|].
    unfold FileSystem.exists_, FileSystem.remove. simpl.
    apply bool_decide_eq_false. rewrite lookup_delete_eq. intros [x Hx]. discriminate.
  - intros Hnot. destruct (asExtractJob sender) as [j|]; [|reflexivity].
    rewrite (Hnot j eq_refl). reflexivity.
  - intros ->. rewrite andb_false_r. reflexivity.
Qed.

(** C5. A progress callback while an abort is pending and [pc] is not
    100 asks the sending job to stop and emits no [progress]; with
    [pc] at 100, or with no abort pending, the value is forwarded by
    the [progress] signal. *)
Theorem percent_while_aborting (d : t) (sender : Sender) (pc : Z) :
  (jobAbortRequested d = true -> pc <> 100 ->
   (forall j, asFileJob sender = Some j -> percent d sender pc = [JobStop])
   /\ List.filter isProgress (percent d sender pc) = [])
  /\ (pc = 100 \/ jobAbortRequested d = false -> percent d sender pc = [Progress pc]).
Proof.
  unfold percent. split.
  - intros -> Hpc. destruct (Z.eqb_spec 100 pc) as [Heq|_]; [congruence|]. simpl.
    split; [intros j ->; reflexivity|]. destruct (asFileJob sender); reflexivity.
  - intros [-> | ->]; [|reflexivity]. simpl. rewrite andb_false_r. reflexivity.
Qed.

(** C10. Whatever the abort flag was, [copySongTo] leaves it cleared
    on every path, the early returns included; so for the job started
    by this call, progress is forwarded, the completion handler
    reports a status and the handler does not touch the files on
    disk. *)
Theorem copySongTo_clears_abort
        (fs : FileSystem.t) (d : t) (s : Song) (musicPath : string)
        (overwrite copyCover : bool) :
  let '(d', _, _) := copySongTo E fs d s musicPath overwrite copyCover in
  jobAbortRequested d' = false
  /\ (forall sender pc, percent d' sender pc = [Progress pc])
  /\ (forall fs1 sender status,
         let '(_, fs2, events) := copySongToResult E fs1 d' sender status in
         fs2 = fs1 /\ List.filter isActionStatus events <> []).
Proof.
  assert (Hflag : jobAbortRequested
                    (fst (fst (copySongTo E fs d s musicPath overwrite copyCover))) = false).
  { unfold copySongTo. destruct d; simpl.
    repeat match goal with
           | |- context [if ?b then _ else _] => destruct b; simpl
           | |- context [let '(_, _) := ?p in _] => destruct p; simpl
           end; reflexivity. }
  destruct (copySongTo E fs d s musicPath overwrite copyCover) as [[d' fs'] events].
  simpl in Hflag. split; [exact Hflag|]. split.
  - intros sender pc. unfold percent. rewrite Hflag. reflexivity.
  - intros fs1 sender status. unfold copySongToResult. rewrite Hflag.
    destruct (isOk status); simpl; split; try reflexivity; discriminate.
Qed.

End CopySong.

Lemma copySongTo_existing_song_rejected_witness :
  AudioCdDevice.connected Sample.cd = true
  /\ AudioCdDevice.songExists Sample.env
       (AudioCdDevice.checkedSong Sample.env Sample.cd (Sample.song "Known" 120)) = true
  /\ let '(d', fs', events) :=
       AudioCdDevice.copySongTo Sample.env Sample.emptyDisk Sample.cd
         (Sample.song "Known" 120) "Artist/Album/01 Known" false true in
     events = [AudioCdDevice.ActionStatus AudioCdDevice.SongExists false]
     /\ List.filter AudioCdDevice.isJobStart events = []
     /\ fs' = Sample.emptyDisk
     /\ AudioCdDevice.currentDestFile d' = AudioCdDevice.currentDestFile Sample.cd
     /\ AudioCdDevice.currentSong d' = AudioCdDevice.currentSong Sample.cd.
Proof.
  split; [reflexivity|]. split; [reflexivity|].
  exact (copySongTo_existing_song_rejected Sample.env Sample.emptyDisk Sample.cd
           (Sample.song "Known" 120) "Artist/Album/01 Known" true
           eq_refl eq_refl).
Defined.

Lemma copySongToResult_aborted_witness :
  AudioCdDevice.jobAbortRequested Sample.abortedCd = true
  /\ let '(d', fs', events) :=
       AudioCdDevice.copySongToResult Sample.env Sample.diskWithPartialFile Sample.abortedCd
         (AudioCdDevice.ExtractJobObject (AudioCdDevice.mkJobState true false))
         AudioCdDevice.Ok in
     FileSystem.exists_ fs' "/music/a.ogg" = false
     /\ List.filter AudioCdDevice.isActionStatus events = [].
Proof.
  split; [reflexivity|].
  pose proof (copySongToResult_aborted Sample.env Sample.diskWithPartialFile Sample.abortedCd
                (AudioCdDevice.ExtractJobObject (AudioCdDevice.mkJobState true false))
                AudioCdDevice.Ok eq_refl) as H.
  destruct (AudioCdDevice.copySongToResult Sample.env Sample.diskWithPartialFile Sample.abortedCd
              (AudioCdDevice.ExtractJobObject (AudioCdDevice.mkJobState true false))
              AudioCdDevice.Ok) as [[d' fs'] events].
  destruct H as (Hev & _ & Hdel & _).
  split; [|exact Hev].
  exact (proj2 (Hdel (AudioCdDevice.mkJobState true false) eq_refl eq_refl eq_refl)).
Defined.

Lemma percent_while_aborting_witness :
  AudioCdDevice.jobAbortRequested Sample.abortedCd = true
  /\ AudioCdDevice.percent Sample.abortedCd
       (AudioCdDevice.ExtractJobObject (AudioCdDevice.mkJobState true false)) 40
     = [AudioCdDevice.JobStop]
  /\ AudioCdDevice.percent Sample.abortedCd
       (AudioCdDevice.ExtractJobObject (AudioCdDevice.mkJobState true false)) 100
     = [AudioCdDevice.Progress 100].
Proof.
  split; [reflexivity|]. split.
  - apply (proj1 (proj1 (percent_while_aborting Sample.abortedCd
                           (AudioCdDevice.ExtractJobObject (AudioCdDevice.mkJobState true false)) 40)
                        eq_refl ltac:(discriminate))
                 (AudioCdDevice.mkJobState true false)).
    reflexivity.
  - apply (proj2 (percent_while_aborting Sample.abortedCd
                    (AudioCdDevice.ExtractJobObject (AudioCdDevice.mkJobState true false)) 100)).
    left. reflexivity.
Defined.

(** ** AudioCdDevice: total playing time *)

Section TotalTime.
Import AudioCdDevice.

Lemma sumTimes_from (songs : list Song) (a : Z) :
  fold_left (fun acc s => wrap32 (acc + Song.time s)) songs (wrap32 a)
  = wrap32 (a + AudioCdDevice.durationSum songs).
Proof.
  revert a. induction songs as [|s songs IH]; intros a; cbn [fold_left].
  - unfold AudioCdDevice.durationSum. cbn [List.map foldr]. rewrite Z.add_0_r. reflexivity.
  - replace (wrap32 (wrap32 a + Song.time s)) with (wrap32 (a + Song.time s))
      by (unfold wrap32; rewrite Zplus_mod_idemp_l; reflexivity).
    rewrite IH. f_equal. unfold AudioCdDevice.durationSum. cbn [List.map foldr]. lia.
Qed.

Lemma sumTimes_wraps (songs : list Song) :
  sumTimes songs = wrap32 (AudioCdDevice.durationSum songs).
Proof. exact (sumTimes_from songs 0). Qed.

Lemma totalTime_cached (d : t) :
  time d <> sentinel -> totalTime d = (d, time d).
Proof.
  intros H. unfold totalTime.
  destruct (Z.eqb_spec sentinel (time d)) as [E|_]; [congruence | reflexivity].
Qed.

(** An audio CD plays for at most 99 x 65535 seconds. *)
Lemma durationSum_audioCd (songs : list Song) :
  audioCdTracks songs ->
  0 <= durationSum songs <= 65535 * Z.of_nat (length songs)
  /\ 0 <= durationSum songs <= 6487965.
Proof.
  intros [Hlen Hall].
  assert (H : 0 <= durationSum songs <= 65535 * Z.of_nat (length songs)).
  { clear Hlen. induction Hall as [|s songs Hs _ IH].
    - unfold durationSum. simpl. lia.
    - unfold durationSum in *. cbn [List.map foldr length]. lia. }
  split; [exact H|]. lia.
Qed.

End TotalTime.

(** C9. A new device has [time] at the sentinel [0xFFFFFFFF].  With
    the tracks of an audio CD as children (at most 99, 16-bit
    durations), the first call of [totalTime] returns and stores the
    sum of the children's durations, 0 without children; every later
    call returns the stored value without summing again, whatever the
    children have become. *)
Theorem totalTime_lazy_sum :
  (forall E base block udi,
      AudioCdDevice.time (fst (AudioCdDevice.construct E base block udi))
      = AudioCdDevice.sentinel)
  /\ AudioCdDevice.sentinel = 0xFFFFFFFF
  /\ forall d : AudioCdDevice.t,
      AudioCdDevice.time d = AudioCdDevice.sentinel ->
      AudioCdDevice.audioCdTracks (AudioCdDevice.childItems d) ->
      let '(d1, t1) := AudioCdDevice.totalTime d in
      t1 = AudioCdDevice.durationSum (AudioCdDevice.childItems d)
      /\ AudioCdDevice.time d1 = t1
      /\ AudioCdDevice.childItems d1 = AudioCdDevice.childItems d
      /\ (AudioCdDevice.childItems d = [] -> t1 = 0)
      /\ forall kids,
          AudioCdDevice.totalTime (AudioCdDevice.set_childItems kids d1)
          = (AudioCdDevice.set_childItems kids d1, t1).
Proof.
  split; [reflexivity|]. split; [reflexivity|].
  intros d Hd Hcd. unfold AudioCdDevice.totalTime at 1. rewrite Hd, Z.eqb_refl.
  cbv zeta. rewrite sumTimes_wraps.
  pose proof (durationSum_audioCd _ Hcd) as Hb.
  assert (Hw : AudioCdDevice.wrap32 (AudioCdDevice.durationSum (AudioCdDevice.childItems d))
               = AudioCdDevice.durationSum (AudioCdDevice.childItems d))
    by (unfold AudioCdDevice.wrap32; apply Z.mod_small; lia).
  assert (Hs : AudioCdDevice.time
                 (AudioCdDevice.set_time
                    (AudioCdDevice.wrap32 (AudioCdDevice.durationSum (AudioCdDevice.childItems d))) d)
               = AudioCdDevice.durationSum (AudioCdDevice.childItems d))
    by (destruct d; exact Hw).
  rewrite Hs.
  split; [reflexivity|]. split; [reflexivity|]. split; [destruct d; reflexivity|]. split.
  - intros Hnil. rewrite Hnil. reflexivity.
  - intros kids. rewrite totalTime_cached.
    + f_equal. destruct d; simpl in *. exact Hw.
    + destruct d; simpl in *. rewrite Hw. unfold AudioCdDevice.sentinel. lia.
Qed.

Lemma totalTime_lazy_sum_witness :
  AudioCdDevice.time Sample.twoTracks = AudioCdDevice.sentinel
  /\ AudioCdDevice.audioCdTracks (AudioCdDevice.childItems Sample.twoTracks)
  /\ let '(d1, t1) := AudioCdDevice.totalTime Sample.twoTracks in
     t1 = 320
     /\ snd (AudioCdDevice.totalTime
               (AudioCdDevice.set_childItems
                  (AudioCdDevice.childItems d1 ++ [Sample.song "Three" 90]) d1)) = 320.
Proof.
  assert (Hcd : AudioCdDevice.audioCdTracks (AudioCdDevice.childItems Sample.twoTracks)).
  { split; [vm_compute; lia|]. repeat constructor; vm_compute; discriminate. }
  split; [reflexivity|]. split; [exact Hcd|].
  pose proof (proj2 (proj2 totalTime_lazy_sum) Sample.twoTracks eq_refl Hcd) as H.
  destruct (AudioCdDevice.totalTime Sample.twoTracks) as [d1 t1].
  destruct H as (Hsum & _ & _ & _ & Hkeep).
  assert (Ht : t1 = 320) by (rewrite Hsum; reflexivity).
  split; [exact Ht|].
  rewrite Hkeep. exact Ht.
Defined.

(** ** AudioCdDevice: metadata matches *)

(** The claim as stated fails for a list of two: the device is still
    looking up when the matches arrive, and [cdMatches] clears
    [lookupInProcess] before anything else. *)
Lemma cdMatches_two_clears_lookupInProcess :
  AudioCdDevice.lookupInProcess Sample.cd = true
  /\ fst (AudioCdDevice.cdMatches Sample.env Sample.cd
            [Sample.albumOf "First" [Sample.song "One" 120];
             Sample.albumOf "Second" [Sample.song "One" 120]])
     <> Sample.cd.
Proof.
  split; [reflexivity|].
  intros H. apply (f_equal AudioCdDevice.lookupInProcess) in H. discriminate H.
Qed.

Section Matches.
Import AudioCdDevice.
Variable E : Env.

Lemma setDetails_ignores_lookupInProcess (d : t) (a : CdAlbum) (b : bool) :
  setDetails E (set_lookupInProcess b d) a = setDetails E d a.
Proof. destruct d; reflexivity. Qed.

(** C6 (amended). [cdMatches] with one candidate does what
    [setDetails] does with it; with more than one it emits [matches]
    with the device's id and the whole list, and with none it emits
    nothing; in these two cases the device is left as it was except
    that [lookupInProcess] is cleared, so a device that was not
    looking up is unchanged. *)
Theorem cdMatches_by_count (d : t) (albums : list CdAlbum) :
  (forall a, albums = [a] -> cdMatches E d albums = setDetails E d a)
  /\ ((1 < length albums)%nat ->
      cdMatches E d albums = (set_lookupInProcess false d, [Matches (id d) albums]))
  /\ (albums = [] -> cdMatches E d albums = (set_lookupInProcess false d, []))
  /\ (lookupInProcess d = false -> set_lookupInProcess false d = d).
Proof.
  split; [|split; [|split]].
  - intros a ->. unfold cdMatches. simpl. apply setDetails_ignores_lookupInProcess.
  - intros Hlen. unfold cdMatches.
    destruct albums as [|a [|b rest]]; simpl in Hlen; try lia.
    destruct d; reflexivity.
  - intros ->. reflexivity.
  - intros Hl. destruct d; simpl in *. rewrite Hl. reflexivity.
Qed.

End Matches.

Lemma cdMatches_by_count_witness :
  let albums := [Sample.albumOf "First" [Sample.song "One" 120];
                 Sample.albumOf "Second" [Sample.song "One" 120]] in
  (1 < length albums)%nat
  /\ AudioCdDevice.cdMatches Sample.env Sample.cd albums
     = (AudioCdDevice.set_lookupInProcess false Sample.cd,
        [AudioCdDevice.Matches (AudioCdDevice.id Sample.cd) albums]).
Proof.
  cbv zeta. split; [simpl; lia|].
  apply (proj1 (proj2 (cdMatches_by_count Sample.env Sample.cd _))). simpl. lia.
Defined.

(** ** UmsDevice: capacity *)

(** The claim as stated fails for a disconnected device whose cache is
    being rebuilt: [cacheProgress] is tested before the connection. *)
Lemma disconnected_reports_cache_progress :
  UmsDevice.isConnected SampleUms.unpluggedWhileCaching = false
  /\ ~ (UmsDevice.usedCapacity SampleUms.unpluggedWhileCaching == inject_Z (-1))%Q
  /\ UmsDevice.capacityString SampleUms.env SampleUms.unpluggedWhileCaching
     <> "Not Connected".
Proof.
  split; [reflexivity|]. split.
  - vm_compute. discriminate.
  - vm_compute. discriminate.
Qed.

Section Capacity.
Import UmsDevice.
Variable E : Env.

(** C2 (amended). While a cache rebuild is in progress
    ([cacheProgress > -1]), connected or not, [usedCapacity] is the
    progress divided by 100 and [capacityString] the status message.
    Otherwise a disconnected device reports -1 and "Not Connected",
    and a connected one the used/size quotient (-1 when the size is
    not positive) and the formatted free space.  [freeSpace] is 0
    when disconnected and size minus used when connected, whatever
    the cache does. *)
Theorem capacity_reports (d : t) :
  (cacheProgress d > -1 ->
   usedCapacity d = quotient (cacheProgress d) 100
   /\ capacityString E d = statusMessage d)
  /\ (cacheProgress d <= -1 -> isConnected d = false ->
      usedCapacity d = inject_Z (-1)
      /\ capacityString E d = "Not Connected")
  /\ (cacheProgress d <= -1 -> isConnected d = true ->
      usedCapacity d = (if size (spaceInfo d) >? 0
                        then quotient (used (spaceInfo d)) (size (spaceInfo d))
                        else inject_Z (-1))
      /\ capacityString E d
         = formatByteSize E (size (spaceInfo d) - used (spaceInfo d)) +:+ " free")
  /\ (isConnected d = false -> freeSpace d = 0)
  /\ (isConnected d = true -> freeSpace d = size (spaceInfo d) - used (spaceInfo d)).
Proof.
  unfold usedCapacity, capacityString, freeSpace.
  repeat split; intros;
    repeat match goal with
           | H : isConnected d = _ |- _ => rewrite H
           | |- context [cacheProgress d >? -1] =>
               destruct (Z.gtb_spec (cacheProgress d) (-1)); try lia
           end; reflexivity.
Qed.

End Capacity.

Lemma capacity_reports_witness :
  (UmsDevice.cacheProgress SampleUms.vfatOff <= -1
   /\ UmsDevice.isConnected SampleUms.vfatOff = true
   /\ (UmsDevice.usedCapacity SampleUms.vfatOff == 1 # 4)%Q
   /\ UmsDevice.capacityString SampleUms.env SampleUms.vfatOff = "6.0 GiB free"
   /\ UmsDevice.freeSpace SampleUms.vfatOff = 6000000000)
  /\ (UmsDevice.cacheProgress SampleUms.unplugged <= -1
      /\ UmsDevice.isConnected SampleUms.unplugged = false
      /\ UmsDevice.usedCapacity SampleUms.unplugged = inject_Z (-1)
      /\ UmsDevice.capacityString SampleUms.env SampleUms.unplugged = "Not Connected"
      /\ UmsDevice.freeSpace SampleUms.unplugged = 0)
  /\ (UmsDevice.cacheProgress SampleUms.unpluggedWhileCaching > -1
      /\ (UmsDevice.usedCapacity SampleUms.unpluggedWhileCaching == 1 # 2)%Q
      /\ UmsDevice.capacityString SampleUms.env SampleUms.unpluggedWhileCaching
         = "Updating (50%)...").
Proof.
  split; [|split].
  - pose proof (capacity_reports SampleUms.env SampleUms.vfatOff)
      as (_ & _ & Hconn & _ & Hfree).
    assert (Hcache : UmsDevice.cacheProgress SampleUms.vfatOff <= -1)
      by (vm_compute; discriminate).
    destruct (Hconn Hcache eq_refl) as [Hused Hstr].
    split; [exact Hcache|]. split; [reflexivity|]. split; [|split].
    + rewrite Hused. reflexivity.
    + rewrite Hstr. reflexivity.
    + rewrite (Hfree eq_refl). reflexivity.
  - pose proof (capacity_reports SampleUms.env SampleUms.unplugged)
      as (_ & Hdisc & _ & Hfree & _).
    assert (Hcache : UmsDevice.cacheProgress SampleUms.unplugged <= -1)
      by (vm_compute; discriminate).
    destruct (Hdisc Hcache eq_refl) as [Hused Hstr].
    split; [exact Hcache|]. split; [reflexivity|]. split; [exact Hused|].
    split; [exact Hstr | exact (Hfree eq_refl)].
  - pose proof (capacity_reports SampleUms.env SampleUms.unpluggedWhileCaching)
      as (Hcaching & _).
    assert (Hcache : UmsDevice.cacheProgress SampleUms.unpluggedWhileCaching > -1)
      by reflexivity.
    destruct (Hcaching Hcache) as [Hused Hstr].
    split; [exact Hcache|]. split; [rewrite Hused; reflexivity | exact Hstr].
Defined.

(** ** UmsDevice: the settings file *)

Section Settings.
Import QString UmsDevice.
Variable E : Env.

Lemma append_assoc (a b c : string) : (a +:+ b) +:+ c = a +:+ (b +:+ c).
Proof.
  induction a as [|x a IH]; [reflexivity|].
  change (String x ((a +:+ b) +:+ c) = String x (a +:+ (b +:+ c))).
  f_equal. exact IH.
Qed.

Lemma keyLine_startsWith (key v : string) :
  startsWith (keyLine key v) (key +:+ "=") = true.
Proof. unfold keyLine. rewrite <- append_assoc. apply startsWith_app. Qed.

(** The last branch of the test chain of [setup] is taken exactly by
    the lines that are not recognized. *)
Lemma setupLine_unrecognized fs path p line :
  recognized E line = false ->
  setupLine E fs path p line
  = mkParsed (p_audioFolder p) (p_audioFolderSetting p) (p_opts p)
             (p_unusedParams p ++ [line]).
Proof.
  unfold recognized, recognizedKeys. cbn [existsb]. intros H.
  repeat (apply orb_false_elim in H; destruct H as [?H H]).
  unfold setupLine.
  repeat match goal with Hk : startsWith line _ = false |- _ => rewrite Hk; clear Hk end.
  reflexivity.
Qed.

Lemma setupLine_recognized fs path p line :
  recognized E line = true ->
  p_unusedParams (setupLine E fs path p line) = p_unusedParams p.
Proof.
  unfold recognized, recognizedKeys. cbn [existsb]. intros H. unfold setupLine.
  repeat match goal with
         | |- context [if startsWith line ?k then _ else _] =>
             destruct (startsWith line k) eqn:?; [try reflexivity|]
         end.
  - destruct (negb _); reflexivity.
  - simpl in H. discriminate H.
Qed.

(** A line that begins with none of the keys is not recognized. *)
Lemma unrecognized_without_key line :
  (forall key, In key (recognizedKeys E) -> startsWith line key = false) ->
  recognized E line = false.
Proof.
  intros Hnone. unfold recognized. apply not_true_is_false. intros H.
  apply existsb_exists in H as (key & Hin & Hkey).
  rewrite startsWith_app_false in Hkey by (apply Hnone; exact Hin). discriminate Hkey.
Qed.

(** What the reading loop adds to [unusedParams]. *)
Lemma setup_loop_unusedParams fs path lines p :
  p_unusedParams (fold_left (setupLine E fs path) lines p)
  = p_unusedParams p ++ List.filter (fun l => negb (recognized E l)) lines.
Proof.
  revert p. induction lines as [|l lines IH]; intros p; cbn [fold_left List.filter].
  - rewrite app_nil_r. reflexivity.
  - rewrite IH. destruct (recognized E l) eqn:Hl; cbn [negb].
    + rewrite setupLine_recognized by exact Hl. reflexivity.
    + rewrite setupLine_unrecognized by exact Hl. cbn [p_unusedParams].
      rewrite <- app_assoc. reflexivity.
Qed.

Lemma savedKeys_recognized (d : t) :
  Forall (fun l => recognized E l = true) (savedKeys E d).
Proof.
  unfold savedKeys. cbv zeta.
  repeat (apply Forall_app; split);
    (unfold emitIf; match goal with |- Forall _ (if ?b then _ else _) => destruct b end;
     [constructor; [|constructor] | constructor]);
    unfold recognized, recognizedKeys; cbn [existsb];
    rewrite ?keyLine_startsWith, ?orb_true_r; reflexivity.
Qed.

Lemma setup_keeps_connection fs (d : t) :
  isConnected (fst (setup E fs d)) = isConnected d
  /\ spaceInfo (fst (setup E fs d)) = spaceInfo d.
Proof.
  unfold setup. destruct (isConnected d) eqn:Hc; cbn [negb]; [|auto].
  destruct (readOpts E fs _ (opts d)) as [haveOpts opts0].
  destruct (FileSystem.files fs !! _); cbn [fst]; auto.
Qed.

Lemma saveOptions_written fs (d : t) :
  isConnected d = true ->
  FileSystem.canWrite fs (settingsFile d) = true ->
  FileSystem.files (saveOptions E fs d) !! settingsFile d
  = Some (savedKeys E d ++ unusedParams d).
Proof.
  intros Hc Hw. unfold saveOptions. rewrite Hc. cbn [negb].
  fold (settingsFile d). rewrite Hw. unfold FileSystem.write. cbn [FileSystem.files].
  apply lookup_insert_eq.
Qed.

(** A line taken by the VFAT branch of the test chain. *)
Lemma setupLine_vfat fs path p line :
  startsWith line (constMusicFolderKey +:+ "=") = false ->
  startsWith line (constMusicFilenameSchemeKey E +:+ "=") = false ->
  startsWith line (constVfatSafeKey E +:+ "=") = true ->
  setupLine E fs path p line
  = withOpts p (DeviceOptions.set_vfatSafe (isTrue (value line)) (p_opts p)).
Proof. intros H1 H2 H3. unfold setupLine. rewrite H1, H2, H3. reflexivity. Qed.

(** The device after [setup] has the options the loop left, but for
    the cover name. *)
Lemma setup_vfatSafe fs (d : t) lines :
  isConnected d = true ->
  FileSystem.files fs !! settingsFile d = Some lines ->
  DeviceOptions.vfatSafe (opts (fst (setup E fs d)))
  = DeviceOptions.vfatSafe
      (p_opts (fold_left (setupLine E fs (path (spaceInfo d))) lines
                 (mkParsed (path (spaceInfo d)) EmptyString
                    (snd (readOpts E fs (path (spaceInfo d) +:+ constCantataSettingsFile E)
                            (opts d)))
                    (unusedParams d)))).
Proof.
  intros Hc Hf. unfold settingsFile in Hf. unfold setup. rewrite Hc. cbn [negb].
  destruct (readOpts E fs _ (opts d)) as [haveOpts opts0]. rewrite Hf. cbn [snd fst opts].
  destruct (isEmpty (DeviceOptions.coverName _)); reflexivity.
Qed.

Lemma setup_unusedParams fs (d : t) lines :
  isConnected d = true ->
  FileSystem.files fs !! settingsFile d = Some lines ->
  unusedParams (fst (setup E fs d))
  = unusedParams d ++ List.filter (fun l => negb (recognized E l)) lines.
Proof.
  intros Hc Hf. unfold settingsFile in Hf. unfold setup. rewrite Hc. cbn [negb].
  destruct (readOpts E fs _ (opts d)) as [haveOpts opts0]. rewrite Hf.
  cbn [fst unusedParams]. rewrite setup_loop_unusedParams. reflexivity.
Qed.

(** C7. [setup] appends to [unusedParams], verbatim and in order, the
    lines of the settings file that begin with no recognized key, and
    the next [saveOptions] writes the key lines, each beginning with a
    recognized key, followed by [unusedParams] unchanged.  A file
    made of [audio_folder=Music], [vfat_safe=true] and one
    unrecognized line sets [vfatSafe] to true, the value being
    compared with the text "true", and keeps that line for the
    rewritten file; [vfat_safe] is the VFAT key there, and the key of
    the naming scheme, tested before it, is taken not to match that
    line. *)
Theorem unrecognized_lines_round_trip
        (fs : FileSystem.t) (d : t) (lines : list string) :
  isConnected d = true ->
  FileSystem.files fs !! settingsFile d = Some lines ->
  let d1 := fst (setup E fs d) in
  unusedParams d1
  = unusedParams d ++ List.filter (fun l => negb (recognized E l)) lines
  /\ (forall l, In l lines ->
                (forall key, In key (recognizedKeys E) -> startsWith l key = false) ->
                In l (unusedParams d1))
  /\ Forall (fun l => recognized E l = true) (savedKeys E d1)
  /\ (forall fs1,
         FileSystem.canWrite fs1 (settingsFile d) = true ->
         FileSystem.files (saveOptions E fs1 d1) !! settingsFile d
         = Some (savedKeys E d1 ++ unusedParams d1))
  /\ (forall x,
         constVfatSafeKey E = "vfat_safe" ->
         startsWith "vfat_safe=true" (constMusicFilenameSchemeKey E +:+ "=") = false ->
         recognized E x = false ->
         lines = ["audio_folder=Music"; "vfat_safe=true"; x] ->
         DeviceOptions.vfatSafe (opts d1) = true
         /\ unusedParams d1 = unusedParams d ++ [x]
         /\ isTrue (value "vfat_safe=true") = true
         /\ isTrue (value "vfat_safe=yes") = false).
Proof.
  intros Hc Hf d1.
  assert (Hunused : unusedParams d1
                    = unusedParams d ++ List.filter (fun l => negb (recognized E l)) lines)
    by (apply setup_unusedParams; assumption).
  destruct (setup_keeps_connection fs d) as [Hc1 Hs1]. fold d1 in Hc1, Hs1.
  split; [exact Hunused|]. split; [|split; [apply savedKeys_recognized|split]].
  - intros l Hl Hnone. rewrite Hunused. apply in_or_app. right.
    apply filter_In. split; [exact Hl|].
    rewrite unrecognized_without_key by exact Hnone. reflexivity.
  - intros fs1 Hw.
    replace (settingsFile d) with (settingsFile d1) in * by (unfold settingsFile; congruence).
    apply saveOptions_written; [congruence | exact Hw].
  - intros x Hkey Hscheme Hx ->.
    assert (Hvfat : startsWith "vfat_safe=true" (constVfatSafeKey E +:+ "=") = true)
      by (rewrite Hkey; reflexivity).
    split; [|split; [|split; reflexivity]].
    + unfold d1. rewrite (setup_vfatSafe fs d _ Hc Hf). cbn [fold_left].
      rewrite setupLine_unrecognized by exact Hx. cbn [p_opts].
      rewrite (setupLine_vfat fs _ _ "vfat_safe=true" eq_refl Hscheme Hvfat).
      reflexivity.
    + rewrite Hunused. f_equal. cbn [List.filter].
      assert (H1 : recognized E "audio_folder=Music" = true) by reflexivity.
      assert (H2 : recognized E "vfat_safe=true" = true).
      { unfold recognized, recognizedKeys. cbn [existsb]. rewrite Hvfat.
        rewrite !orb_true_r. reflexivity. }
      rewrite H1, H2, Hx. reflexivity.
Qed.

(** With the naming scheme at its default, what [saveOptions] writes
    does not depend on [vfatSafe]. *)
Lemma savedLines_ignore_vfatSafe (d : t) (b : bool) :
  DeviceOptions.scheme (opts d) = DeviceOptions.scheme (def E) ->
  savedLines E (set_opts (DeviceOptions.set_vfatSafe b (opts d)) d) = savedLines E d.
Proof.
  intros Hs. unfold savedLines, savedKeys. destruct d as [? ? ? ? o ? ? ? ? ? ? ?].
  cbn in *. rewrite Hs, String.eqb_refl. reflexivity.
Qed.

End Settings.

Lemma unrecognized_lines_round_trip_witness :
  let d1 := fst (UmsDevice.setup SampleUms.env SampleUms.disk SampleUms.stick) in
  UmsDevice.isConnected SampleUms.stick = true
  /\ FileSystem.files SampleUms.disk !! UmsDevice.settingsFile SampleUms.stick
     = Some ["audio_folder=Music"; "vfat_safe=true"; "podcast_folder=Podcasts"]
  /\ DeviceOptions.vfatSafe (UmsDevice.opts SampleUms.stick) = false
  /\ DeviceOptions.vfatSafe (UmsDevice.opts d1) = true
  /\ UmsDevice.unusedParams d1 = ["podcast_folder=Podcasts"]
  /\ FileSystem.files (UmsDevice.saveOptions SampleUms.env SampleUms.disk d1)
       !! UmsDevice.settingsFile SampleUms.stick
     = Some ["audio_folder=./Music/"; "podcast_folder=Podcasts"].
Proof.
  intros d1.
  assert (Hfile : FileSystem.files SampleUms.disk !! UmsDevice.settingsFile SampleUms.stick
                  = Some ["audio_folder=Music"; "vfat_safe=true"; "podcast_folder=Podcasts"])
    by (vm_compute; reflexivity).
  pose proof (unrecognized_lines_round_trip SampleUms.env SampleUms.disk SampleUms.stick
                _ eq_refl Hfile) as (_ & _ & _ & Hsave & Hexample).
  destruct (Hexample "podcast_folder=Podcasts" eq_refl eq_refl eq_refl eq_refl)
    as (Hvfat & Hunused & _).
  split; [reflexivity|]. split; [exact Hfile|]. split; [reflexivity|].
  split; [exact Hvfat|]. split; [exact Hunused|].
  fold d1 in Hsave. rewrite (Hsave SampleUms.disk) by (vm_compute; reflexivity).
  vm_compute. reflexivity.
Defined.

(** ** UmsDevice: the VFAT key in [saveOptions] *)

(** C1. [saveOptions] puts the VFAT key under the test of the naming
    scheme, [opts.scheme!=def.scheme], where the other keys test their
    own option.  On the sample stick: with [vfatSafe] off its default
    and the scheme at its default no [vfat_safe] line is written, and
    with [vfatSafe] at its default and the scheme changed one is. *)
Theorem saveOptions_vfatSafe_follows_scheme :
  DeviceOptions.vfatSafe (UmsDevice.opts SampleUms.vfatOff)
  <> DeviceOptions.vfatSafe (UmsDevice.def SampleUms.env)
  /\ FileSystem.files (UmsDevice.saveOptions SampleUms.env SampleUms.disk SampleUms.vfatOff)
       !! UmsDevice.settingsFile SampleUms.vfatOff
     = Some ["audio_folder=./Music/"]
  /\ DeviceOptions.vfatSafe (UmsDevice.opts SampleUms.schemeChanged)
     = DeviceOptions.vfatSafe (UmsDevice.def SampleUms.env)
  /\ FileSystem.files (UmsDevice.saveOptions SampleUms.env SampleUms.disk SampleUms.schemeChanged)
       !! UmsDevice.settingsFile SampleUms.schemeChanged
     = Some ["audio_folder=./Music/"; "music_filenamescheme=%artist% - %title%";
             "vfat_safe=true"].
Proof.
  split; [discriminate|]. split; [vm_compute; reflexivity|].
  split; [reflexivity|]. vm_compute. reflexivity.
Qed.

(** * Further properties *)

(** ** More facts about the string operations *)

Section MoreStringFacts.
Import QString Text.

Lemma hasChar_replaceChar_gone (a b : ascii) (s : string) :
  a <> b -> hasChar a (replaceChar a b s) = false.
Proof.
  intros Hab. induction s as [|c s IH]; [reflexivity|].
  cbn [replaceChar hasChar]. rewrite IH, orb_false_r.
  destruct (Ascii.eqb_spec c a) as [->|Hc].
  - apply Ascii.eqb_neq. congruence.
  - apply Ascii.eqb_neq. exact Hc.
Qed.

Lemma hasChar_replaceChar_keep (c a b : ascii) (s : string) :
  c <> b -> hasChar c s = false -> hasChar c (replaceChar a b s) = false.
Proof.
  intros Hcb. induction s as [|x s IH]; [reflexivity|].
  cbn [replaceChar hasChar]. intros H.
  apply orb_false_elim in H as [Hx Hs]. rewrite (IH Hs), orb_false_r.
  destruct (Ascii.eqb x a); [apply Ascii.eqb_neq; congruence | exact Hx].
Qed.

Lemma replaceChar_absent (a b : ascii) (s : string) :
  hasChar a s = false -> replaceChar a b s = s.
Proof.
  induction s as [|x s IH]; [reflexivity|].
  cbn [replaceChar hasChar]. intros H.
  apply orb_false_elim in H as [Hx Hs]. rewrite Hx, (IH Hs). reflexivity.
Qed.

Lemma length_replaceChar (a b : ascii) (s : string) :
  String.length (replaceChar a b s) = String.length s.
Proof. induction s as [|x s IH]; [reflexivity|]. cbn. rewrite IH. reflexivity. Qed.

Lemma fields_nonempty (sep : ascii) (s : string) : fields sep s <> [].
Proof.
  destruct s as [|c s]; [discriminate|]. cbn [fields].
  destruct (Ascii.eqb c sep); [discriminate|].
  destruct (fields sep s); discriminate.
Qed.

(** Splitting at a separator splits the list of fields. *)
Lemma fields_app (sep : ascii) (a b : string) :
  fields sep (a +:+ String sep b) = fields sep a ++ fields sep b.
Proof.
  induction a as [|c a IH].
  - change (fields sep (String sep b) = [EmptyString] ++ fields sep b).
    cbn [fields]. rewrite Ascii.eqb_refl. reflexivity.
  - change (fields sep (String c (a +:+ String sep b))
            = fields sep (String c a) ++ fields sep b).
    cbn [fields]. rewrite IH. destruct (Ascii.eqb c sep); [reflexivity|].
    pose proof (fields_nonempty sep a) as Hne.
    destruct (fields sep a) as [|f fs]; [congruence | reflexivity].
Qed.

(** The first field is the text up to the first separator. *)
Lemma fields_head (sep : ascii) (s : string) :
  exists rest, fields sep s = upTo sep s :: rest.
Proof.
  unfold upTo. induction s as [|c s [rest IH]]; [exists []; reflexivity|].
  cbn [fields span]. rewrite (Ascii.eqb_sym sep c).
  destruct (Ascii.eqb c sep); [eexists; reflexivity|].
  rewrite IH. destruct (span (Ascii.eqb sep) s) as [x y]. eexists. reflexivity.
Qed.

Lemma fields_without_sep (sep : ascii) (s : string) :
  hasChar sep s = false -> fields sep s = [s].
Proof.
  induction s as [|c s IH]; [reflexivity|].
  cbn [hasChar fields]. intros H. apply orb_false_elim in H as [Hc Hs].
  rewrite Hc, (IH Hs). reflexivity.
Qed.

Lemma endsWithChar_snoc (s : string) (c : ascii) :
  endsWithChar (s +:+ String c EmptyString) c = true.
Proof.
  induction s as [|a s IH]; [apply Ascii.eqb_refl|].
  change (endsWithChar (String a (s +:+ String c EmptyString)) c = true).
  cbn [endsWithChar]. destruct (s +:+ String c EmptyString) eqn:Hs; [|exact IH].
  destruct s; discriminate Hs.
Qed.

Lemma endsWithChar_app (p s : string) (c : ascii) :
  s <> EmptyString -> endsWithChar (p +:+ s) c = endsWithChar s c.
Proof.
  intros Hs. induction p as [|a p IH]; [reflexivity|].
  change (endsWithChar (String a (p +:+ s)) c = endsWithChar s c).
  cbn [endsWithChar]. destruct (p +:+ s) eqn:Hps; [|exact IH].
  destruct p; [exfalso; apply Hs; exact Hps | discriminate Hps].
Qed.

Lemma withSlash_ends (s : string) : endsWithChar (withSlash s) "/"%char = true.
Proof.
  unfold withSlash. destruct (endsWithChar s "/"%char) eqn:H; [exact H|].
  apply endsWithChar_snoc.
Qed.

End MoreStringFacts.

(** ** AudioCdDevice: cover address and device of a URL *)

Lemma list_ascii_replaceChar (a b : ascii) (s : string) :
  String.list_ascii_of_string (QString.replaceChar a b s)
  = List.map (fun c => if Ascii.eqb c a then b else c) (String.list_ascii_of_string s).
Proof.
  induction s as [|c s IH]; [reflexivity|].
  cbn [QString.replaceChar String.list_ascii_of_string List.map]. rewrite IH. reflexivity.
Qed.

(** X1. The address [coverUrl] makes of a device id is the protocol
    followed by the id in which every blank, line feed, tab, slash and
    colon has become an underscore and every other character is kept,
    in place: as long as the id, free of these five characters, and
    the id itself when it has none of them. *)
Theorem coverUrl_sanitised (proto udi : string) :
  exists u,
    AudioCdDevice.coverUrl proto udi = proto +:+ u
    /\ String.list_ascii_of_string u
       = List.map (fun c => if Ascii.eqb c " " || Ascii.eqb c (QString.ch 10)
                               || Ascii.eqb c (QString.ch 9) || Ascii.eqb c "/"
                               || Ascii.eqb c ":"
                            then "_"%char else c)
                  (String.list_ascii_of_string udi)
    /\ String.length u = String.length udi
    /\ Forall (fun c => Text.hasChar c u = false)
              [" "%char; QString.ch 10; QString.ch 9; "/"%char; ":"%char]
    /\ (Forall (fun c => Text.hasChar c udi = false)
               [" "%char; QString.ch 10; QString.ch 9; "/"%char; ":"%char] ->
        u = udi).
Proof.
  unfold AudioCdDevice.coverUrl. eexists. split; [reflexivity|]. split; [|split; [|split]].
  - rewrite !list_ascii_replaceChar, !List.map_map. apply List.map_ext. intros c.
    destruct (Ascii.eqb_spec c " ") as [->|_]; [reflexivity|].
    destruct (Ascii.eqb_spec c (QString.ch 10)) as [->|_]; [reflexivity|].
    destruct (Ascii.eqb_spec c (QString.ch 9)) as [->|_]; [reflexivity|].
    destruct (Ascii.eqb_spec c "/") as [->|_]; [reflexivity|].
    destruct (Ascii.eqb_spec c ":") as [->|_]; reflexivity.
  - rewrite !length_replaceChar. reflexivity.
  - repeat constructor.
    + do 4 (apply hasChar_replaceChar_keep; [discriminate|]).
      apply hasChar_replaceChar_gone. discriminate.
    + do 3 (apply hasChar_replaceChar_keep; [discriminate|]).
      apply hasChar_replaceChar_gone. discriminate.
    + do 2 (apply hasChar_replaceChar_keep; [discriminate|]).
      apply hasChar_replaceChar_gone. discriminate.
    + apply hasChar_replaceChar_keep; [discriminate|].
      apply hasChar_replaceChar_gone. discriminate.
    + apply hasChar_replaceChar_gone. discriminate.
  - rewrite !Forall_cons. intros (H1 & H2 & H3 & H4 & H5 & _).
    rewrite (replaceChar_absent _ _ udi H1), (replaceChar_absent _ _ udi H2),
      (replaceChar_absent _ _ udi H3), (replaceChar_absent _ _ udi H4),
      (replaceChar_absent _ _ udi H5).
    reflexivity.
Qed.

Lemma coverUrl_sanitised_witness :
  AudioCdDevice.coverUrl "cdda://" "/org/freedesktop/UDisks2/block_devices/sr0: My Disc"
  = "cdda://_org_freedesktop_UDisks2_block_devices_sr0__My_Disc".
Proof.
  destruct (coverUrl_sanitised "cdda://"
              "/org/freedesktop/UDisks2/block_devices/sr0: My Disc")
    as (u & Hurl & Hmap & _).
  rewrite Hurl, <- (String.string_of_list_ascii_of_string u), Hmap. reflexivity.
Defined.

(** X2. For a URL of another scheme than [cdda], [getDevice] returns
    the empty string when the path is not under [/run/user/] and when
    the marker [/gvfs/cdda:host=] occurs nowhere in it; what it
    returns is empty or begins with [/dev/]. *)
Theorem getDevice_other_scheme (url : QUrl.t) :
  QUrl.scheme url <> "cdda" ->
  (QString.startsWith (QUrl.path url) "/run/user/" = false ->
   AudioCdDevice.getDevice url = EmptyString)
  /\ ((forall k, QString.startsWith (QString.mid (QUrl.path url) k) AudioCdDevice.marker
                 = false) ->
      AudioCdDevice.getDevice url = EmptyString)
  /\ (AudioCdDevice.getDevice url = EmptyString
      \/ QString.startsWith (AudioCdDevice.getDevice url) "/dev/" = true).
Proof.
  intros Hs. unfold AudioCdDevice.getDevice.
  destruct (String.eqb_spec "cdda" (QUrl.scheme url)) as [E|_]; [congruence|].
  cbv zeta. split; [|split].
  - intros ->. reflexivity.
  - intros Hnone. destruct (QString.startsWith (QUrl.path url) "/run/user/"); [|reflexivity].
    unfold QString.lastIndexOf. rewrite lastIndexOf_from_none by exact Hnone. reflexivity.
  - destruct (QString.startsWith (QUrl.path url) "/run/user/"); [|left; reflexivity].
    destruct (negb _); [right; apply startsWith_app | left; reflexivity].
Qed.

Lemma getDevice_other_scheme_witness :
  AudioCdDevice.getDevice (QUrl.fromString "file:///home/user/Music/a.ogg") = EmptyString.
Proof.
  apply (proj1 (getDevice_other_scheme
                  (QUrl.fromString "file:///home/user/Music/a.ogg") ltac:(discriminate))).
  reflexivity.
Defined.

Section AudioDevice.
Import QString AudioCdDevice AudioCdMore.

(** X3. A device answers to its own device path and to the "any
    device" mark; so the device named by a [cdda] URL without a [dev]
    item is every audio CD device, and the one named by a URL with
    [dev=v] is the device whose path is [v] (every device when [v] is
    the mark itself). *)
Theorem isAudioDevice_of_url (d : t) (url : QUrl.t) :
  QUrl.scheme url = "cdda" ->
  isAudioDevice d (device d) = true
  /\ isAudioDevice d constAnyDev = true
  /\ (QUrl.hasQueryItem url "dev" = false -> isAudioDevice d (getDevice url) = true)
  /\ (QUrl.hasQueryItem url "dev" = true ->
      (isAudioDevice d (getDevice url) = true
       <-> QUrl.queryItemValue url "dev" = constAnyDev
           \/ QUrl.queryItemValue url "dev" = device d)).
Proof.
  intros Hs.
  assert (Hg : getDevice url
               = if QUrl.hasQueryItem url "dev" then QUrl.queryItemValue url "dev"
                 else constAnyDev)
    by (unfold getDevice; rewrite Hs; reflexivity).
  rewrite Hg. unfold isAudioDevice.
  split; [rewrite String.eqb_refl; apply orb_true_r|]. split; [reflexivity|]. split.
  - intros ->. reflexivity.
  - intros ->. rewrite orb_true_iff, !String.eqb_eq.
    split; (intros [H|H]; [left|right]; congruence).
Qed.

End AudioDevice.

Lemma isAudioDevice_of_url_witness :
  AudioCdMore.isAudioDevice Sample.cd
    (AudioCdDevice.getDevice (QUrl.fromString "cdda://")) = true
  /\ AudioCdMore.isAudioDevice Sample.cd
       (AudioCdDevice.getDevice (QUrl.fromString "cdda:///?dev=/dev/sr0")) = true.
Proof.
  split.
  - apply (proj1 (proj2 (proj2 (isAudioDevice_of_url Sample.cd
                                   (QUrl.fromString "cdda://") eq_refl)))).
    reflexivity.
  - apply (proj2 (proj2 (proj2 (isAudioDevice_of_url Sample.cd
                                   (QUrl.fromString "cdda:///?dev=/dev/sr0") eq_refl)))
                 eq_refl).
    right. reflexivity.
Defined.

(** ** AudioCdDevice: construction *)

Section Construction.
Import QString Text AudioCdDevice AudioCdMore.
Variable E : Env.

Lemma filter_nonempty_fields_snoc (pre name : string) :
  name <> EmptyString -> hasChar "/"%char name = false ->
  last (splitSkipEmpty "/"%char (pre +:+ "/" +:+ name)) = Some name.
Proof.
  intros Hne Hslash. unfold splitSkipEmpty.
  change (pre +:+ "/" +:+ name) with (pre +:+ String "/"%char name).
  rewrite fields_app, (fields_without_sep _ name Hslash), List.filter_app.
  cbn [List.filter]. destruct name; [congruence|]. cbn [isEmpty negb].
  apply last_snoc.
Qed.

Lemma splitSkipEmpty_slashes (udi : string) :
  (forall c, hasChar c udi = true -> c = "/"%char) ->
  splitSkipEmpty "/"%char udi = [].
Proof.
  unfold splitSkipEmpty. induction udi as [|c s IH]; intros Hall; [reflexivity|].
  assert (Hc : c = "/"%char)
    by (apply Hall; cbn [hasChar]; rewrite Ascii.eqb_refl; reflexivity).
  subst c. cbn [fields]. rewrite Ascii.eqb_refl. cbn [List.filter isEmpty negb].
  apply IH. intros c Hin. apply Hall. cbn [hasChar]. rewrite Hin. apply orb_true_r.
Qed.

(** X4. When Solid gives no block device, the constructor takes the
    device from the UDI: with a UDI ending in [/<name>], [<name>] not
    empty and without slash, the device is [/dev/] followed by
    [<name>] up to its first colon; the path of the device is then the
    protocol, the device and a slash, the lookup is marked as running
    and [lookup] is emitted once, with the [cdAuto] setting. *)
Theorem construct_from_udi (base : t) (pre name : string) :
  name <> EmptyString ->
  hasChar "/"%char name = false ->
  let '(d, events) := construct E base None (pre +:+ "/" +:+ name) in
  device d = "/dev/" +:+ upTo ":"%char name
  /\ devPath d = constCddaProtocol E +:+ device d +:+ "/"
  /\ lookupInProcess d = true
  /\ events = [Lookup (cdAuto E)].
Proof.
  intros Hne Hslash. unfold construct, deviceOf.
  rewrite filter_nonempty_fields_snoc by assumption.
  destruct (fields_head ":"%char name) as [rest ->].
  repeat split; reflexivity.
Qed.

(** X5. Without a block device and with a UDI that has no part between
    its slashes, the empty UDI included, the constructor finds no
    device: the device and its path stay empty, no lookup is started,
    and no later [rescan] starts one either. *)
Theorem construct_without_device (base : t) (udi : string) :
  (forall c, hasChar c udi = true -> c = "/"%char) ->
  let '(d, events) := construct E base None udi in
  device d = EmptyString
  /\ devPath d = EmptyString
  /\ lookupInProcess d = false
  /\ events = []
  /\ forall useCddb, rescan d useCddb = (d, []).
Proof.
  intros Hall. unfold construct, deviceOf.
  rewrite (splitSkipEmpty_slashes udi Hall). repeat split; reflexivity.
Qed.

End Construction.

Lemma construct_from_udi_witness :
  let '(d, events) :=
    AudioCdDevice.construct Sample.env Sample.base None
      ("/org/freedesktop/UDisks2/block_devices" +:+ "/" +:+ "sr0:1") in
  AudioCdDevice.device d = "/dev/sr0"
  /\ AudioCdDevice.devPath d = "cdda:///dev/sr0/"
  /\ AudioCdDevice.lookupInProcess d = true
  /\ events = [AudioCdDevice.Lookup true].
Proof.
  exact (construct_from_udi Sample.env Sample.base
           "/org/freedesktop/UDisks2/block_devices" "sr0:1"
           ltac:(discriminate) eq_refl).
Defined.

Lemma construct_without_device_witness :
  let '(d, events) := AudioCdDevice.construct Sample.env Sample.base None "//" in
  AudioCdDevice.device d = EmptyString
  /\ AudioCdDevice.devPath d = EmptyString
  /\ AudioCdDevice.lookupInProcess d = false
  /\ events = []
  /\ forall useCddb, AudioCdMore.rescan d useCddb = (d, []).
Proof.
  apply (construct_without_device Sample.env Sample.base "//").
  intros c H. cbn [Text.hasChar] in H.
  destruct (Ascii.eqb_spec "/"%char c) as [Heq|_]; [symmetry; exact Heq | discriminate H].
Defined.

(** ** AudioCdDevice: more on copying a track *)

Section MoreCopySong.
Import QString AudioCdDevice AudioCdMore.
Variable E : Env.

Ltac copy_cases :=
  repeat match goal with
         | |- context [createWorldReadableDir ?a ?b ?c ?d] =>
             destruct (createWorldReadableDir a b c d) as [? ?] eqn:?; simpl
         | |- context [if ?b then _ else _] => destruct b eqn:?; simpl
         end.

(** X6. Every call of [copySongTo] has exactly one outcome: one of the
    four failure codes, or one job started for this song, from the
    device, towards [currentDestFile], with the cover only when asked
    for.  Without a job [currentSong] stays as it was, and the disk is
    touched at most by the creation of a missing destination
    directory. *)
Theorem copySongTo_one_outcome
        (fs : FileSystem.t) (d : t) (s : Song) (musicPath : string)
        (overwrite copyCover : bool) :
  let '(d', fs', events) := copySongTo E fs d s musicPath overwrite copyCover in
  (exists e, events = [e]
             /\ (isCopyFailure e = true
                 \/ exists j, e = JobStart j
                              /\ connected d = true
                              /\ j_source j = device d
                              /\ j_dest j = currentDestFile d'
                              /\ j_song j = s
                              /\ currentSong d' = s
                              /\ j_cover j = if copyCover then fileName (coverImage d)
                                             else EmptyString))
  /\ (List.filter isJobStart events = [] -> currentSong d' = currentSong d)
  /\ (fs' = fs
      \/ exists dir, FileSystem.dirExists fs dir = false
                     /\ fs' = snd (createWorldReadableDir E fs (absolutePath E dir) (mpdDir E))).
Proof.
  unfold copySongTo. destruct d. simpl.
  copy_cases;
    (split; [eexists; split; [reflexivity|];
             first [left; reflexivity
                   | right; eexists; repeat split; try reflexivity;
                     match goal with
                     | H : negb ?c = false |- ?c = true =>
                         destruct c; [reflexivity | discriminate H]
                     end]
            | split; [intros H; first [reflexivity | discriminate H]|]]);
    first [left; reflexivity
          | right; eexists; split; [eassumption|];
            match goal with H : createWorldReadableDir _ _ _ _ = _ |- _ => rewrite H end;
            reflexivity].
Qed.

(** X7. With [overwrite] set the collection is not asked whether the
    song exists: whatever [songExists] would answer, [copySongTo] does
    the same. *)
Theorem copySongTo_overwrite_skips_lookup
        (songExists' : Song -> bool)
        (fs : FileSystem.t) (d : t) (s : Song) (musicPath : string) (copyCover : bool) :
  copySongTo (withSongExists songExists' E) fs d s musicPath true copyCover
  = copySongTo E fs d s musicPath true copyCover.
Proof. unfold copySongTo. destruct E. reflexivity. Qed.

(** When a job has been started, the device is ready for its result. *)
Lemma copySongTo_started fs (d : t) s musicPath overwrite copyCover d1 fs1 j :
  copySongTo E fs d s musicPath overwrite copyCover = (d1, fs1, [JobStart j]) ->
  jobAbortRequested d1 = false
  /\ currentDestFile d1 = j_dest j
  /\ currentSong d1 = s
  /\ needToFixVa d1
     = (DeviceOptions.fixVariousArtists (opts d) && isVariousArtists E s).
Proof.
  unfold copySongTo. destruct d. simpl.
  copy_cases; intros H; try discriminate H;
    injection H as <- _ <-; repeat split; reflexivity.
Qed.

(** X8. A copy that succeeds leaves in [currentSong] the song with its
    file relative to the collection: when the job started by
    [copySongTo] writes to [<collection dir><rel>] and ends with [Ok],
    no abort having been asked for, the handler sets the permissions
    of that file, reports [Ok] with the job's cover flag, and
    [currentSong] is the copied song with the file [<rel>], encoded
    for a Mopidy server, the various-artists change undone when it had
    been made. *)
Theorem copied_song_is_relative
        (fs fs' : FileSystem.t) (d : t) (s : Song) (musicPath rel : string)
        (overwrite copyCover : bool) (d1 : t) (fs1 : FileSystem.t)
        (j : ExtractJob) (state : JobState) :
  copySongTo E fs d s musicPath overwrite copyCover = (d1, fs1, [JobStart j]) ->
  j_dest j = mpdDir E +:+ rel ->
  let '(d2, fs2, events) :=
    copySongToResult E fs' d1 (ExtractJobObject state) Ok in
  events = [JobFinished; SetFilePerms (j_dest j); ActionStatus Ok (coverCopied state)]
  /\ fs2 = fs'
  /\ currentSong d2
     = (if DeviceOptions.fixVariousArtists (opts d) && isVariousArtists E s
        then revertVariousArtists E else fun x => x)
         (Song.set_file (if isMopidy E then encodePath E rel else rel) s).
Proof.
  intros Hcopy Hdest.
  destruct (copySongTo_started _ _ _ _ _ _ _ _ _ Hcopy) as (Habort & Hfile & Hsong & Hva).
  unfold copySongToResult. rewrite Habort, Hfile, Hsong, Hva, Hdest. cbn [isOk negb asExtractJob].
  unfold size. rewrite mid_app_0.
  split; [reflexivity|]. split; [reflexivity|].
  destruct d1; cbn. destruct (_ && _); reflexivity.
Qed.

(** X9. When no abort has been asked for, the completion handler
    leaves the disk alone and reports the status it was given, once: a
    failure as it is, with the device unchanged, and [Ok] with the
    cover flag of the extraction job, false when the sender is none. *)
Theorem copySongToResult_reports
        (fs : FileSystem.t) (d : t) (sender : Sender) (status : Status) :
  jobAbortRequested d = false ->
  let '(d', fs', events) := copySongToResult E fs d sender status in
  fs' = fs
  /\ (exists flag,
         head events = Some JobFinished
         /\ last events = Some (ActionStatus status flag)
         /\ List.filter isActionStatus events = [ActionStatus status flag]
         /\ (isOk status = false -> flag = false /\ d' = d)
         /\ (asExtractJob sender = None -> flag = false)
         /\ (forall state, isOk status = true -> asExtractJob sender = Some state ->
                           flag = coverCopied state)).
Proof.
  intros Habort. unfold copySongToResult. rewrite Habort.
  destruct status; cbn [isOk negb]; (split; [reflexivity|]);
    eexists; (split; [reflexivity|]); (split; [reflexivity|]); (split; [reflexivity|]);
    repeat split; try reflexivity; try discriminate.
  - intros ->. reflexivity.
  - intros state _ ->. reflexivity.
Qed.

End MoreCopySong.

Lemma copySongTo_one_outcome_witness :
  let '(d', fs', events) :=
    AudioCdDevice.copySongTo Sample.env Sample.emptyDisk
      (AudioCdDevice.set_currentSong (Sample.song "Before" 60) Sample.cd)
      (Sample.song "Known" 120) "Artist/Album/01 Known" false true in
  List.filter AudioCdDevice.isJobStart events = []
  /\ AudioCdDevice.currentSong d' = Sample.song "Before" 60.
Proof.
  pose proof (copySongTo_one_outcome Sample.env Sample.emptyDisk
                (AudioCdDevice.set_currentSong (Sample.song "Before" 60) Sample.cd)
                (Sample.song "Known" 120) "Artist/Album/01 Known" false true) as H.
  destruct (AudioCdDevice.copySongTo Sample.env Sample.emptyDisk
              (AudioCdDevice.set_currentSong (Sample.song "Before" 60) Sample.cd)
              (Sample.song "Known" 120) "Artist/Album/01 Known" false true)
    as [[d' fs'] events] eqn:Hrun.
  destruct H as (_ & Hkeep & _).
  assert (Hnone : List.filter AudioCdDevice.isJobStart events = []).
  { vm_compute in Hrun. injection Hrun as _ _ <-. reflexivity. }
  split; [exact Hnone | exact (Hkeep Hnone)].
Defined.

Lemma copied_song_is_relative_witness :
  let run :=
    AudioCdDevice.copySongTo Sample.env Sample.emptyDisk Sample.cd
      (Sample.song "New" 120) "Artist/Album/01 New" false false in
  let '(d2, fs2, events) :=
    AudioCdDevice.copySongToResult Sample.env Sample.emptyDisk (fst (fst run))
      (AudioCdDevice.ExtractJobObject (AudioCdDevice.mkJobState true true))
      AudioCdDevice.Ok in
  events = [AudioCdDevice.JobFinished;
            AudioCdDevice.SetFilePerms "/music/Artist/Album/01 New.ogg";
            AudioCdDevice.ActionStatus AudioCdDevice.Ok true]
  /\ fs2 = Sample.emptyDisk
  /\ AudioCdDevice.currentSong d2
     = Song.set_file "Artist/Album/01 New.ogg" (Sample.song "New" 120).
Proof.
  intros run.
  exact (copied_song_is_relative Sample.env Sample.emptyDisk Sample.emptyDisk Sample.cd
           (Sample.song "New" 120) "Artist/Album/01 New" "Artist/Album/01 New.ogg"
           false false (fst (fst run)) (snd (fst run))
           (AudioCdDevice.mkJob "ogg" 5 "/dev/sr0" "/music/Artist/Album/01 New.ogg"
                                (Sample.song "New" 120) "")
           (AudioCdDevice.mkJobState true true)
           eq_refl eq_refl).
Defined.

Lemma copySongToResult_reports_witness :
  let '(d', fs', events) :=
    AudioCdDevice.copySongToResult Sample.env Sample.diskWithPartialFile Sample.cd
      (AudioCdDevice.ExtractJobObject (AudioCdDevice.mkJobState true false))
      (AudioCdDevice.OtherStatus 7) in
  fs' = Sample.diskWithPartialFile
  /\ d' = Sample.cd
  /\ List.filter AudioCdDevice.isActionStatus events
     = [AudioCdDevice.ActionStatus (AudioCdDevice.OtherStatus 7) false].
Proof.
  pose proof (copySongToResult_reports Sample.env Sample.diskWithPartialFile Sample.cd
                (AudioCdDevice.ExtractJobObject (AudioCdDevice.mkJobState true false))
                (AudioCdDevice.OtherStatus 7) eq_refl) as H.
  destruct (AudioCdDevice.copySongToResult Sample.env Sample.diskWithPartialFile Sample.cd
              (AudioCdDevice.ExtractJobObject (AudioCdDevice.mkJobState true false))
              (AudioCdDevice.OtherStatus 7)) as [[d' fs'] events].
  destruct H as (Hfs & flag & _ & _ & Hev & Hfail & _).
  destruct (Hfail eq_refl) as [-> Hd].
  split; [exact Hfs|]. split; [exact Hd | exact Hev].
Defined.

(** ** AudioCdDevice: details of the disc, tracks and cover *)

Section Details.
Import QString AudioCdDevice AudioCdMore.
Variable E : Env.

Ltac details_cases :=
  repeat match goal with
         | |- context [if ?b then _ else _] => destruct b eqn:?; simpl
         end.

(** The members [setDetails] leaves alone, those it always sets, and
    those the receivers of [updating] decide. *)
Lemma setDetails_members (d : t) (a : CdAlbum) :
  let d' := fst (setDetails E d a) in
  time d' = time d
  /\ id d' = id d
  /\ lookupInProcess d' = false
  /\ autoPlay d' = false
  /\ album d' = a_name a
  /\ artist d' = a_artist a
  /\ childItems d' = fst (receiveUpdating E (detailsInstalled E d a))
  /\ update d' = snd (receiveUpdating E (detailsInstalled E d a))
  /\ statusMessage d' = EmptyString
  /\ detailsString d' = detailsString (detailsInstalled E d a).
Proof.
  unfold setDetails.
  destruct (receiveUpdating E (detailsInstalled E d a)) as [kids staged].
  destruct d. simpl. details_cases; repeat split; reflexivity.
Qed.

(** The first event of [setDetails] is [updating(id(), false)]. *)
Lemma setDetails_first_event (d : t) (a : CdAlbum) :
  head (snd (setDetails E d a)) = Some (Updating (id d) false).
Proof.
  unfold setDetails.
  destruct (receiveUpdating E (detailsInstalled E d a)) as [kids staged].
  destruct d. simpl. details_cases; reflexivity.
Qed.

Lemma wrapInt_small (z : Z) : - 2 ^ 31 <= z < 2 ^ 31 -> wrapInt z = z.
Proof. intros H. unfold wrapInt. rewrite Z.mod_small; lia. Qed.

(** The [int] sum of the loop is the sum of the durations as long as
    no partial sum leaves the range of [int]. *)
Lemma fold_left_durations (songs : list Song) (acc : Z) :
  Forall (fun s => 0 <= Song.time s <= 65535) songs ->
  0 <= acc -> acc + 65535 * Z.of_nat (length songs) < 2 ^ 31 ->
  fold_left (fun acc s => wrapInt (acc + Song.time s)) songs acc = acc + durationSum songs.
Proof.
  intros Hall. revert acc.
  induction Hall as [|s songs Hs _ IH]; intros acc Hacc Hlen; cbn [fold_left].
  - unfold durationSum. cbn. lia.
  - cbn [length] in Hlen. rewrite wrapInt_small by lia.
    rewrite IH by lia. unfold durationSum. cbn [List.map foldr]. lia.
Qed.

(** X10. [setDetails] does not reset [time]: a total time summed
    before new details arrive is still what [totalTime] answers after
    them, whatever children the receivers of [updating] have
    installed; only a total not yet summed is taken from these
    children. *)
Theorem setDetails_keeps_total_time (d : t) (a : CdAlbum) :
  time (fst (setDetails E d a)) = time d
  /\ (time d <> sentinel ->
      totalTime (fst (setDetails E d a)) = (fst (setDetails E d a), time d))
  /\ (time d = sentinel ->
      snd (totalTime (fst (setDetails E d a)))
      = sumTimes (fst (receiveUpdating E (detailsInstalled E d a)))).
Proof.
  destruct (setDetails_members d a) as (Ht & _ & _ & _ & _ & _ & Hkids & _).
  cbv zeta in Ht, Hkids.
  split; [exact Ht|]. split.
  - intros Hne. rewrite totalTime_cached by congruence. rewrite Ht. reflexivity.
  - intros Hs. unfold totalTime. rewrite Ht, Hs, Z.eqb_refl. cbv zeta.
    rewrite Hkids. destruct (fst (setDetails E d a)); reflexivity.
Qed.

(** X11. When [setDetails] emits [updating], one item per track of the
    album is staged, in order, each the track with its size set to
    176400 bytes for every second of its duration, computed in [int]
    and therefore exact for tracks of up to 12173 seconds; the
    children are still the old ones, the status message is cleared and
    the details text is made from the number of tracks and the [int]
    sum of their durations, the sum itself for the tracks of an audio
    CD.  [updating] is the first signal, and the children and the
    staged update are, at the end, as its receivers left them. *)
Theorem setDetails_stages_tracks (d : t) (a : CdAlbum) :
  let d0 := detailsInstalled E d a in
  (exists items,
      update d0 = Some items
      /\ length items = length (a_tracks a)
      /\ (forall i s, nth_error (a_tracks a) i = Some s ->
                      nth_error items i
                      = Some (Song.set_size (wrapInt (Song.time s * 176400)) s))
      /\ (forall i s, nth_error (a_tracks a) i = Some s ->
                      0 <= Song.time s <= 12173 ->
                      nth_error items i = Some (Song.set_size (Song.time s * 176400) s)))
  /\ childItems d0 = childItems d
  /\ statusMessage d0 = EmptyString
  /\ (audioCdTracks (a_tracks a) ->
      detailsString d0 = trTracks E (length (a_tracks a)) (durationSum (a_tracks a)))
  /\ head (snd (setDetails E d a)) = Some (Updating (id d) false)
  /\ childItems (fst (setDetails E d a)) = fst (receiveUpdating E d0)
  /\ update (fst (setDetails E d a)) = snd (receiveUpdating E d0)
  /\ statusMessage (fst (setDetails E d a)) = EmptyString
  /\ detailsString (fst (setDetails E d a)) = detailsString d0.
Proof.
  cbv zeta.
  assert (Hnth : forall i s, nth_error (a_tracks a) i = Some s ->
                 nth_error
                   (List.map (fun s => Song.set_size (wrapInt (Song.time s * constBytesPerSecond)) s)
                             (a_tracks a)) i
                 = Some (Song.set_size (wrapInt (Song.time s * 176400)) s))
    by (intros i s Hi; rewrite nth_error_map, Hi; reflexivity).
  split; [|split; [|split; [|split]]].
  - eexists. split; [reflexivity|]. split; [apply length_map|]. split; [exact Hnth|].
    intros i s Hi Hs. rewrite (Hnth i s Hi). rewrite wrapInt_small by lia. reflexivity.
  - reflexivity.
  - reflexivity.
  - intros [Hlen Hall]. unfold detailsInstalled. cbn [detailsString].
    rewrite fold_left_durations by (try exact Hall; lia). reflexivity.
  - split; [apply setDetails_first_event|].
    destruct (setDetails_members d a) as (_ & _ & _ & _ & _ & _ & Hk & Hu & Hs & Hd).
    repeat split; assumption.
Qed.


(** X13. [autoplay] plays at once when the device has tracks, all of
    them; without tracks it emits nothing and notes the wish, and the
    next [setDetails] then clears the note and plays the tracks the
    receivers of [updating] have installed, all of them in one [play],
    without [updatedDetails].  Without that note [setDetails] never
    plays and announces the installed tracks in one
    [updatedDetails]. *)
Theorem autoplay_now_or_later (d : t) (a : CdAlbum) :
  (childItems d <> [] -> autoplay d = (d, [Play (tracksOf d)]))
  /\ (childItems d = [] ->
      autoplay d = (set_autoPlay true d, [])
      /\ let '(d', events) := setDetails E (fst (autoplay d)) a in
         autoPlay d' = false
         /\ List.filter isUpdatedDetails events = []
         /\ (childItems d' <> [] ->
             List.filter isPlay events = [Play (tracksOf d')]
             /\ last events = Some (Play (tracksOf d')))
         /\ (childItems d' = [] -> List.filter isPlay events = []))
  /\ (autoPlay d = false ->
      let '(d', events) := setDetails E d a in
      autoPlay d' = false
      /\ List.filter isPlay events = []
      /\ (childItems d' <> [] ->
          List.filter isUpdatedDetails events = [UpdatedDetails (tracksOf d')]
          /\ last events = Some (UpdatedDetails (tracksOf d')))
      /\ (childItems d' = [] -> List.filter isUpdatedDetails events = [])).
Proof.
  split; [|split].
  - intros Hne. unfold autoplay, playTracks, tracksOf.
    destruct (childItems d) as [|s kids]; [congruence | reflexivity].
  - intros Hnone. unfold autoplay. rewrite Hnone. cbn [length Nat.eqb negb fst].
    split; [reflexivity|].
    unfold setDetails.
    destruct (receiveUpdating E (detailsInstalled E (set_autoPlay true d) a))
      as [kids staged].
    unfold playTracks, tracksOf. destruct d. simpl in *. subst.
    destruct kids; simpl; details_cases;
      (split; [reflexivity|]); (split; [reflexivity|]);
      (split; [intros H; first [congruence | split; reflexivity]
              | intros H; first [discriminate H | reflexivity]]).
  - intros Hno. unfold setDetails.
    destruct (receiveUpdating E (detailsInstalled E d a)) as [kids staged].
    unfold updateDetails, tracksOf. destruct d. simpl in *. subst.
    destruct kids; simpl; details_cases;
      (split; [reflexivity|]); (split; [reflexivity|]);
      (split; [intros H; first [congruence | split; reflexivity]
              | intros H; first [discriminate H | reflexivity]]).
Qed.

(** X14. After [rescan] on a device that has a device path the lookup
    is marked as running and [lookup(true)] is emitted; whatever list
    of matches then arrives, one album included, [cdMatches] leaves
    the mark cleared. *)
Theorem rescan_then_matches (d : t) (useCddb : bool) (albums : list CdAlbum) :
  device d <> EmptyString ->
  rescan d useCddb = (set_lookupInProcess true d, [Lookup true])
  /\ lookupInProcess (fst (rescan d useCddb)) = true
  /\ lookupInProcess (fst (cdMatches E (fst (rescan d useCddb)) albums)) = false.
Proof.
  intros Hdev. unfold rescan. destruct (device d) as [|c0 dev] eqn:Hd; [congruence|].
  cbn [isEmpty negb fst]. split; [reflexivity|]. split; [destruct d; reflexivity|].
  unfold cdMatches. destruct albums as [|a [|b rest]]; cbn [length Nat.eqb Nat.ltb Nat.leb].
  - destruct d; reflexivity.
  - apply setDetails_members.
  - destruct d; reflexivity.
Qed.

(** X15. The tracks handed to the play queue and announced in
    [updatedDetails] are the children, as many and in order, each with
    the path of the device put before its file, so that taking that
    path off again gives the children back; [playTracks],
    [updateDetails] and [dequeue] do nothing at all without
    children. *)
Theorem tracks_carry_device_path (d : t) :
  length (tracksOf d) = length (childItems d)
  /\ Forall (fun t => startsWith (Song.file t) (devPath d) = true) (tracksOf d)
  /\ List.map (fun t => Song.set_file (mid (Song.file t) (size (devPath d))) t) (tracksOf d)
     = childItems d
  /\ (childItems d = [] ->
      playTracks d = [] /\ updateDetails d = [] /\ dequeue d = [])
  /\ (childItems d <> [] ->
      playTracks d = [Play (tracksOf d)]
      /\ updateDetails d = [UpdatedDetails (tracksOf d)]
      /\ dequeue d = [tracksOf d]).
Proof.
  unfold playTracks, updateDetails, dequeue, tracksOf.
  split; [apply length_map|]. split; [|split; [|split]].
  - apply Forall_forall. intros t Hin. apply list_elem_of_In in Hin.
    apply in_map_iff in Hin as (s & <- & _). destruct s. apply startsWith_app.
  - rewrite List.map_map. rewrite <- (List.map_id (childItems d)) at 2.
    apply List.map_ext. intros s. destruct s. cbn.
    unfold size. rewrite mid_app_0. reflexivity.
  - intros ->. repeat split; reflexivity.
  - intros Hne. destruct (childItems d); [congruence|]. repeat split; reflexivity.
Qed.

(** X16. The destructor deletes nothing but the cover file, and that
    only when its name is not empty and lies in the cache directory
    of the CD covers; every other file, and a cover from elsewhere,
    stays on the disk. *)
Theorem destroy_removes_only_cached_cover
        (cacheDir : string) (fs : FileSystem.t) (d : t) :
  (forall f, f <> fileName (coverImage d) ->
             FileSystem.files (destroy cacheDir fs d) !! f = FileSystem.files fs !! f)
  /\ FileSystem.dirs (destroy cacheDir fs d) = FileSystem.dirs fs
  /\ (startsWith (fileName (coverImage d)) cacheDir = false ->
      destroy cacheDir fs d = fs)
  /\ (fileName (coverImage d) <> EmptyString ->
      startsWith (fileName (coverImage d)) cacheDir = true ->
      FileSystem.exists_ (destroy cacheDir fs d) (fileName (coverImage d)) = false).
Proof.
  unfold destroy. split; [|split; [|split]].
  - intros f Hf. destruct (_ && _); [|reflexivity].
    unfold FileSystem.remove. cbn [FileSystem.files].
    apply lookup_delete_ne. congruence.
  - destruct (_ && _); reflexivity.
  - intros ->. rewrite andb_false_r. reflexivity.
  - intros Hne ->. destruct (fileName (coverImage d)) eqn:Hf; [congruence|].
    cbn [isEmpty negb andb]. unfold FileSystem.exists_, FileSystem.remove.
    cbn [FileSystem.files]. apply bool_decide_eq_false.
    rewrite lookup_delete_eq. intros [x Hx]. discriminate Hx.
Qed.

(** X17. The song [setDetails] asks a cover for passes the filter of
    the slot that receives covers: a cover announced for it becomes
    the cover of the device.  A cover for another album or another
    album artist, or for a song that is not of the CD kind, is
    ignored. *)
Theorem requested_cover_is_accepted
        (isCdda : Song -> bool) (d : t) (a : CdAlbum) (img : Image) :
  (forall s, Song.type s = Song.Cdda -> isCdda s = true) ->
  (let d' := fst (setDetails E d a) in
   let asked := Song.mk (coverUrl (constCddaProtocol E) (id d)) (id d)
                        (a_artist a) (a_artist a) (a_name a) 0 0 Song.Cdda in
   setCoverFor isCdda d' asked img = (set_coverImage img d', [UpdateStatus]))
  /\ (forall song,
         Song.album song <> album d \/ Song.albumartist song <> artist d
         \/ isCdda song = false ->
         setCoverFor isCdda d song img = (d, [])).
Proof.
  intros Hcdda. split.
  - cbv zeta. destruct (setDetails_members d a) as (_ & _ & _ & _ & Hal & Har & _).
    cbv zeta in Hal, Har. unfold setCoverFor.
    rewrite Hcdda by reflexivity. cbn [Song.albumartist Song.album].
    rewrite Hal, Har, !String.eqb_refl. reflexivity.
  - intros song H. unfold setCoverFor.
    destruct H as [H|[H|H]].
    + apply String.eqb_neq in H. rewrite H, andb_false_r. reflexivity.
    + apply String.eqb_neq in H. rewrite H, andb_false_r. reflexivity.
    + rewrite H. reflexivity.
Qed.

End Details.

Lemma setDetails_keeps_total_time_witness :
  let summed := fst (AudioCdDevice.totalTime Sample.twoTracks) in
  let d' := fst (AudioCdDevice.setDetails Sample.env summed
                   (Sample.albumOf "Other" [Sample.song "Only" 10])) in
  AudioCdDevice.time summed <> AudioCdDevice.sentinel
  /\ List.map Song.time (AudioCdDevice.childItems d') = [10]
  /\ AudioCdDevice.totalTime d' = (d', 320).
Proof.
  intros summed d'.
  assert (Hne : AudioCdDevice.time summed <> AudioCdDevice.sentinel)
    by (vm_compute; discriminate).
  split; [exact Hne|]. split; [reflexivity|].
  exact (proj1 (proj2 (setDetails_keeps_total_time Sample.env summed
                         (Sample.albumOf "Other" [Sample.song "Only" 10]))) Hne).
Defined.

Lemma setDetails_stages_tracks_witness :
  let a := Sample.albumOf "Album" [Sample.song "Long" 180; Sample.song "Endless" 12174] in
  AudioCdDevice.audioCdTracks (AudioCdDevice.a_tracks a)
  /\ AudioCdDevice.update (AudioCdDevice.detailsInstalled Sample.env Sample.cd a)
     = Some [Song.set_size 31752000 (Sample.song "Long" 180);
             Song.set_size (-2147473696) (Sample.song "Endless" 12174)]
  /\ AudioCdDevice.detailsString (AudioCdDevice.detailsInstalled Sample.env Sample.cd a)
     = AudioCdDevice.trTracks Sample.env 2 12354
  /\ AudioCdDevice.childItems (fst (AudioCdDevice.setDetails Sample.env Sample.cd a))
     = [Song.set_size 31752000 (Sample.song "Long" 180);
        Song.set_size (-2147473696) (Sample.song "Endless" 12174)].
Proof.
  intros a.
  assert (Hcd : AudioCdDevice.audioCdTracks (AudioCdDevice.a_tracks a)).
  { split; [vm_compute; lia|]. repeat constructor; vm_compute; discriminate. }
  split; [exact Hcd|].
  destruct (setDetails_stages_tracks Sample.env Sample.cd a)
    as ((items & Hupdate & Hlen & Hnth & Hexact) & _ & _ & Hdetails & _ & Hkids & _).
  split; [|split].
  - rewrite Hupdate. f_equal.
    pose proof (Hexact 0%nat (Sample.song "Long" 180) eq_refl ltac:(vm_compute; split; discriminate)) as H0.
    pose proof (Hnth 1%nat (Sample.song "Endless" 12174) eq_refl) as H1.
    destruct items as [|x [|y [|z rest]]]; try discriminate Hlen.
    injection H0 as ->. injection H1 as ->. reflexivity.
  - rewrite (Hdetails Hcd). reflexivity.
  - rewrite Hkids. reflexivity.
Defined.


Lemma autoplay_now_or_later_witness :
  let a := Sample.albumOf "Album" [Sample.song "One" 120] in
  AudioCdMore.autoplay Sample.twoTracks
  = (Sample.twoTracks, [AudioCdDevice.Play (AudioCdDevice.tracksOf Sample.twoTracks)])
  /\ AudioCdMore.autoplay Sample.cd = (AudioCdDevice.set_autoPlay true Sample.cd, [])
  /\ List.filter AudioCdMore.isPlay
       (snd (AudioCdDevice.setDetails Sample.env (fst (AudioCdMore.autoplay Sample.cd)) a))
     = [AudioCdDevice.Play
          [Song.set_file "cdda:///dev/sr0/track.wav"
             (Song.set_size 21168000 (Sample.song "One" 120))]]
  /\ List.filter AudioCdMore.isUpdatedDetails
       (snd (AudioCdDevice.setDetails Sample.env Sample.cd a))
     = [AudioCdDevice.UpdatedDetails
          [Song.set_file "cdda:///dev/sr0/track.wav"
             (Song.set_size 21168000 (Sample.song "One" 120))]].
Proof.
  intros a.
  pose proof (autoplay_now_or_later Sample.env Sample.twoTracks a) as (Hnow & _ & _).
  pose proof (autoplay_now_or_later Sample.env Sample.cd a) as (_ & Hlater & Hplain).
  split; [apply Hnow; discriminate|].
  destruct (Hlater eq_refl) as [Hnote Hnext].
  split; [exact Hnote|]. split.
  - destruct (AudioCdDevice.setDetails Sample.env (fst (AudioCdMore.autoplay Sample.cd)) a)
      as [d' events] eqn:Hrun.
    destruct Hnext as (_ & _ & Hplay & _).
    assert (Hd : d' = fst (AudioCdDevice.setDetails Sample.env
                             (fst (AudioCdMore.autoplay Sample.cd)) a))
      by (rewrite Hrun; reflexivity).
    cbn [snd]. rewrite (proj1 (Hplay ltac:(rewrite Hd; discriminate))).
    rewrite Hd. reflexivity.
  - specialize (Hplain eq_refl).
    destruct (AudioCdDevice.setDetails Sample.env Sample.cd a) as [d' events] eqn:Hrun.
    destruct Hplain as (_ & _ & Hupd & _).
    assert (Hd : d' = fst (AudioCdDevice.setDetails Sample.env Sample.cd a))
      by (rewrite Hrun; reflexivity).
    cbn [snd]. rewrite (proj1 (Hupd ltac:(rewrite Hd; discriminate))).
    rewrite Hd. reflexivity.
Defined.

Lemma rescan_then_matches_witness :
  AudioCdDevice.device Sample.cd <> EmptyString
  /\ AudioCdDevice.lookupInProcess
       (fst (AudioCdDevice.cdMatches Sample.env (fst (AudioCdMore.rescan Sample.cd true))
               [Sample.albumOf "Album" [Sample.song "One" 120]])) = false.
Proof.
  assert (Hdev : AudioCdDevice.device Sample.cd <> EmptyString) by discriminate.
  split; [exact Hdev|].
  exact (proj2 (proj2 (rescan_then_matches Sample.env Sample.cd true
                         [Sample.albumOf "Album" [Sample.song "One" 120]] Hdev))).
Defined.

Lemma tracks_carry_device_path_witness :
  AudioCdDevice.childItems Sample.twoTracks <> []
  /\ AudioCdMore.dequeue Sample.twoTracks = [AudioCdDevice.tracksOf Sample.twoTracks]
  /\ List.map Song.file (AudioCdDevice.tracksOf Sample.twoTracks)
     = ["cdda:///dev/sr0/track.wav"; "cdda:///dev/sr0/track.wav"].
Proof.
  assert (Hne : AudioCdDevice.childItems Sample.twoTracks <> []) by discriminate.
  split; [exact Hne|]. split; [|reflexivity].
  pose proof (tracks_carry_device_path Sample.twoTracks) as (_ & _ & _ & _ & Hsome).
  exact (proj2 (proj2 (Hsome Hne))).
Defined.

Lemma destroy_removes_only_cached_cover_witness :
  let d := AudioCdDevice.set_coverImage
             (AudioCdDevice.mkImage false "/home/user/.cache/cantata/cdda/sr0.jpg")
             Sample.cd in
  let fs := FileSystem.mk {[ "/home/user/.cache/cantata/cdda/sr0.jpg" := [];
                             "/home/user/Pictures/cover.jpg" := [] ]} ∅ ∅ in
  FileSystem.exists_ (AudioCdMore.destroy "/home/user/.cache/cantata/cdda/" fs d)
    "/home/user/.cache/cantata/cdda/sr0.jpg" = false
  /\ FileSystem.files (AudioCdMore.destroy "/home/user/.cache/cantata/cdda/" fs d)
       !! "/home/user/Pictures/cover.jpg"
     = FileSystem.files fs !! "/home/user/Pictures/cover.jpg".
Proof.
  intros d fs.
  pose proof (destroy_removes_only_cached_cover "/home/user/.cache/cantata/cdda/" fs d)
    as (Hother & _ & _ & Hgone).
  split.
  - apply Hgone; [discriminate | reflexivity].
  - apply Hother. discriminate.
Defined.

Lemma requested_cover_is_accepted_witness :
  let isCdda := fun s => match Song.type s with Song.Cdda => true | _ => false end in
  let d' := fst (AudioCdDevice.setDetails Sample.env Sample.cd
                   (Sample.albumOf "Album" [Sample.song "One" 120])) in
  (forall s, Song.type s = Song.Cdda -> isCdda s = true)
  /\ AudioCdMore.setCoverFor isCdda d'
       (Song.mk "" "" "Artist" "Artist" "Album" 0 0 Song.Cdda)
       (AudioCdDevice.mkImage false "/tmp/cover.jpg")
     = (AudioCdDevice.set_coverImage (AudioCdDevice.mkImage false "/tmp/cover.jpg") d',
        [AudioCdDevice.UpdateStatus])
  /\ AudioCdMore.setCoverFor isCdda d'
       (Song.mk "" "" "Artist" "Artist" "Another" 0 0 Song.Cdda)
       (AudioCdDevice.mkImage false "/tmp/cover.jpg")
     = (d', []).
Proof.
  intros isCdda d'.
  assert (Hcdda : forall s, Song.type s = Song.Cdda -> isCdda s = true)
    by (intros s Hs; unfold isCdda; rewrite Hs; reflexivity).
  split; [exact Hcdda|]. split; [reflexivity|].
  apply (proj2 (requested_cover_is_accepted Sample.env isCdda d'
                  (Sample.albumOf "Album" []) (AudioCdDevice.mkImage false "/tmp/cover.jpg")
                  Hcdda)).
  left. discriminate.
Defined.

(** ** UmsDevice: what [setup] resolves *)

Section SetupFacts.
Import QString Text UmsDevice UmsMore.
Variable E : Env.

(** [setup] on a connected device, spelled out from what the loop
    left. *)
Lemma setup_connected fs (d : t) :
  isConnected d = true ->
  let p := parsed E fs d in
  let opts1 := if isEmpty (DeviceOptions.coverName (p_opts p))
               then DeviceOptions.set_coverName (constDefCoverFileName E) (p_opts p)
               else p_opts p in
  let folder := if isEmpty (p_audioFolderSetting p)
                   || negb (String.eqb (p_audioFolderSetting p) (p_audioFolder p))
                then probeDirs fs (path (spaceInfo d)) standardDirs (p_audioFolder p)
                else p_audioFolder p in
  let d1 := fst (setup E fs d) in
  audioFolder d1 = withSlash folder
  /\ opts d1 = opts1
  /\ unusedParams d1 = p_unusedParams p
  /\ configured d1
     = match FileSystem.files fs !! settingsFile d with
       | Some _ => true
       | None => if configured d then true
                 else fst (readOpts E fs (path (spaceInfo d) +:+ constCantataSettingsFile E)
                             (opts d))
       end
  /\ snd (setup E fs d)
     = (if DeviceOptions.autoScan opts1 || scanned d then [Rescan false] else [])
       ++ (if negb (isEmpty (DeviceOptions.name opts1))
              && negb (String.eqb (DeviceOptions.name opts1) (data d))
           then [Renamed] else []).
Proof.
  intros Hc. unfold setup, parsed, settingsFile, withSlash. rewrite Hc. cbn [negb].
  destruct (readOpts E fs _ (opts d)) as [haveOpts opts0]. cbn [fst snd].
  destruct (FileSystem.files fs !! _) as [lines|]; cbn [fst snd audioFolder opts
    unusedParams configured negb];
    (split; [match goal with |- context [endsWithChar ?x _] =>
               destruct (endsWithChar x "/"%char) end; reflexivity|]);
    (split; [reflexivity|]); (split; [reflexivity|]);
    (split; [try reflexivity; destruct (configured d); reflexivity|]); reflexivity.
Qed.

Lemma setupLine_keeps_folder fs path p line :
  notFolderLine line = true ->
  p_audioFolder (setupLine E fs path p line) = p_audioFolder p
  /\ p_audioFolderSetting (setupLine E fs path p line) = p_audioFolderSetting p.
Proof.
  unfold notFolderLine. intros H. apply negb_true_iff in H.
  unfold setupLine. rewrite H.
  repeat match goal with
         | |- context [if ?b then _ else _] => destruct b
         end; split; reflexivity.
Qed.

Lemma loop_keeps_folder fs path lines p :
  Forall (fun l => notFolderLine l = true) lines ->
  p_audioFolder (fold_left (setupLine E fs path) lines p) = p_audioFolder p
  /\ p_audioFolderSetting (fold_left (setupLine E fs path) lines p)
     = p_audioFolderSetting p.
Proof.
  intros Hall. revert p. induction Hall as [|l lines Hl _ IH]; intros p; [split; reflexivity|].
  cbn [fold_left]. destruct (IH (setupLine E fs path p l)) as [-> ->].
  apply setupLine_keeps_folder. exact Hl.
Qed.

Lemma probeDirs_first fs path pre name post cur :
  Forall (fun n => FileSystem.dirExists fs (path +:+ n) = false) pre ->
  FileSystem.dirExists fs (path +:+ name) = true ->
  probeDirs fs path (pre ++ name :: post) cur = path +:+ name.
Proof.
  intros Hpre Hname. induction Hpre as [|n pre Hn _ IH]; cbn [probeDirs app].
  - rewrite Hname. reflexivity.
  - rewrite Hn. exact IH.
Qed.

Lemma probeDirs_none fs path ds cur :
  Forall (fun n => FileSystem.dirExists fs (path +:+ n) = false) ds ->
  probeDirs fs path ds cur = cur.
Proof.
  intros Hds. induction Hds as [|n ds Hn _ IH]; cbn [probeDirs]; [reflexivity|].
  rewrite Hn. exact IH.
Qed.

(** Without an [audio_folder] line the loop leaves the mount root as
    the folder and no folder setting. *)
Lemma parsed_without_folder_line fs (d : t) :
  match FileSystem.files fs !! settingsFile d with
  | Some lines => Forall (fun l => notFolderLine l = true) lines
  | None => True
  end ->
  p_audioFolder (parsed E fs d) = path (spaceInfo d)
  /\ p_audioFolderSetting (parsed E fs d) = EmptyString.
Proof.
  unfold parsed. destruct (FileSystem.files fs !! settingsFile d) as [lines|]; intros H.
  - destruct (loop_keeps_folder fs (path (spaceInfo d)) lines
                (mkParsed (path (spaceInfo d)) EmptyString
                   (snd (readOpts E fs (path (spaceInfo d) +:+ constCantataSettingsFile E)
                           (opts d)))
                   (unusedParams d)) H) as [-> ->].
    split; reflexivity.
  - split; reflexivity.
Qed.

(** X18. After [setup] on a connected device the audio folder ends
    with a slash, whatever the settings file and the disk hold. *)
Theorem setup_folder_ends_with_slash (fs : FileSystem.t) (d : t) :
  isConnected d = true ->
  endsWithChar (audioFolder (fst (setup E fs d))) "/"%char = true.
Proof.
  intros Hc. destruct (setup_connected fs d Hc) as (-> & _). apply withSlash_ends.
Qed.

(** X19. With no [audio_folder] line to go by (no settings file, or
    none of its lines sets the folder), [setup] takes the first of
    [Music], [MUSIC], [Albums], [ALBUMS] that exists under the mount
    path, in this order, and the mount path itself when none does;
    a slash is put behind it. *)
Theorem setup_detects_standard_folder
        (fs : FileSystem.t) (d : t) (pre post : list string) (name : string) :
  isConnected d = true ->
  match FileSystem.files fs !! settingsFile d with
  | Some lines => Forall (fun l => notFolderLine l = true) lines
  | None => True
  end ->
  (standardDirs = pre ++ name :: post ->
   Forall (fun n => FileSystem.dirExists fs (path (spaceInfo d) +:+ n) = false) pre ->
   FileSystem.dirExists fs (path (spaceInfo d) +:+ name) = true ->
   audioFolder (fst (setup E fs d)) = path (spaceInfo d) +:+ name +:+ "/")
  /\ (Forall (fun n => FileSystem.dirExists fs (path (spaceInfo d) +:+ n) = false)
             standardDirs ->
      audioFolder (fst (setup E fs d)) = withSlash (path (spaceInfo d))).
Proof.
  intros Hc Hlines.
  destruct (setup_connected fs d Hc) as (Hfolder & _). cbv zeta in Hfolder.
  destruct (parsed_without_folder_line fs d Hlines) as [Hf Hs].
  rewrite Hs, Hf in Hfolder. cbn [isEmpty orb] in Hfolder. rewrite Hfolder. split.
  - intros Hdirs Hpre Hname. rewrite Hdirs, (probeDirs_first _ _ _ _ _ _ Hpre Hname).
    assert (Hin : In name standardDirs) by (rewrite Hdirs; apply in_elt).
    unfold withSlash. rewrite endsWithChar_app.
    + rewrite append_assoc.
      destruct Hin as [<-|[<-|[<-|[<-|[]]]]]; reflexivity.
    + destruct Hin as [<-|[<-|[<-|[<-|[]]]]]; discriminate.
  - intros Hnone. rewrite (probeDirs_none _ _ _ _ Hnone). reflexivity.
Qed.

(** X20. [setup] never takes the "configured" mark from a connected
    device and sets it whenever the settings file can be read; without
    that file an unconfigured device is configured exactly when
    [readOpts] found Cantata's own settings. *)
Theorem setup_configured (fs : FileSystem.t) (d : t) :
  isConnected d = true ->
  (configured d = true -> configured (fst (setup E fs d)) = true)
  /\ (is_Some (FileSystem.files fs !! settingsFile d) ->
      configured (fst (setup E fs d)) = true)
  /\ (FileSystem.files fs !! settingsFile d = None -> configured d = false ->
      configured (fst (setup E fs d))
      = fst (readOpts E fs (path (spaceInfo d) +:+ constCantataSettingsFile E) (opts d))).
Proof.
  intros Hc. destruct (setup_connected fs d Hc) as (_ & _ & _ & -> & _).
  split; [|split].
  - intros ->. destruct (FileSystem.files fs !! settingsFile d); reflexivity.
  - intros [lines ->]. reflexivity.
  - intros -> ->. reflexivity.
Qed.

(** X21. [setup] never empties [unusedParams]: run once more on the
    same file, as on every reconnection, it appends the unrecognized
    lines a second time, so that the next [saveOptions] writes them
    twice. *)
Theorem setup_again_duplicates_unused_lines
        (fs : FileSystem.t) (d : t) (lines : list string) :
  isConnected d = true ->
  FileSystem.files fs !! settingsFile d = Some lines ->
  let unknown := List.filter (fun l => negb (recognized E l)) lines in
  let d2 := fst (setup E fs (fst (setup E fs d))) in
  unusedParams d2 = unusedParams d ++ unknown ++ unknown
  /\ (forall fs', FileSystem.canWrite fs' (settingsFile d) = true ->
                  FileSystem.files (saveOptions E fs' d2) !! settingsFile d
                  = Some (savedKeys E d2 ++ unusedParams d ++ unknown ++ unknown)).
Proof.
  intros Hc Hf unknown d2.
  destruct (setup_keeps_connection E fs d) as [Hc1 Hs1].
  destruct (setup_keeps_connection E fs (fst (setup E fs d))) as [Hc2 Hs2].
  assert (Hfile1 : settingsFile (fst (setup E fs d)) = settingsFile d)
    by (unfold settingsFile; rewrite Hs1; reflexivity).
  assert (Hfile2 : settingsFile d2 = settingsFile d)
    by (unfold settingsFile, d2; rewrite Hs2, Hs1; reflexivity).
  assert (Hu : unusedParams d2 = unusedParams d ++ unknown ++ unknown).
  { unfold d2. rewrite (setup_unusedParams E fs _ lines);
      [|congruence | rewrite Hfile1; exact Hf].
    rewrite (setup_unusedParams E fs d lines Hc Hf). rewrite <- app_assoc. reflexivity. }
  split; [exact Hu|].
  intros fs' Hw. rewrite <- Hfile2, <- Hu.
  apply saveOptions_written; [unfold d2; congruence | rewrite Hfile2; exact Hw].
Qed.

End SetupFacts.

Lemma setup_folder_ends_with_slash_witness :
  UmsDevice.isConnected SampleUms.stick = true
  /\ QString.endsWithChar
       (UmsDevice.audioFolder (fst (UmsDevice.setup SampleUms.env SampleUms.disk SampleUms.stick)))
       "/"%char = true.
Proof.
  split; [reflexivity|].
  exact (setup_folder_ends_with_slash SampleUms.env SampleUms.disk SampleUms.stick eq_refl).
Defined.

Lemma setup_detects_standard_folder_witness :
  UmsDevice.audioFolder
    (fst (UmsDevice.setup SampleUms.env SampleMore.plainDisk SampleUms.stick))
  = "/media/usb/MUSIC/".
Proof.
  assert (Hnone : match FileSystem.files SampleMore.plainDisk
                          !! UmsDevice.settingsFile SampleUms.stick with
                  | Some lines => Forall (fun l => UmsMore.notFolderLine l = true) lines
                  | None => True
                  end) by exact I.
  apply (proj1 (setup_detects_standard_folder SampleUms.env SampleMore.plainDisk
                  SampleUms.stick ["Music"] ["Albums"; "ALBUMS"] "MUSIC" eq_refl Hnone)).
  - reflexivity.
  - repeat constructor.
  - vm_compute. reflexivity.
Defined.

Lemma setup_configured_witness :
  UmsDevice.configured SampleUms.stick = false
  /\ UmsDevice.configured (fst (UmsDevice.setup SampleUms.env SampleUms.disk SampleUms.stick))
     = true.
Proof.
  split; [reflexivity|].
  apply (proj1 (proj2 (setup_configured SampleUms.env SampleUms.disk SampleUms.stick eq_refl))).
  eexists. vm_compute. reflexivity.
Defined.

Lemma setup_again_duplicates_unused_lines_witness :
  UmsDevice.unusedParams
    (fst (UmsDevice.setup SampleUms.env SampleUms.disk
            (fst (UmsDevice.setup SampleUms.env SampleUms.disk SampleUms.stick))))
  = ["podcast_folder=Podcasts"; "podcast_folder=Podcasts"].
Proof.
  assert (Hfile : FileSystem.files SampleUms.disk !! UmsDevice.settingsFile SampleUms.stick
                  = Some ["audio_folder=Music"; "vfat_safe=true"; "podcast_folder=Podcasts"])
    by (vm_compute; reflexivity).
  rewrite (proj1 (setup_again_duplicates_unused_lines SampleUms.env SampleUms.disk
                    SampleUms.stick _ eq_refl Hfile)).
  reflexivity.
Defined.

(** ** UmsDevice: writing the settings and reading them back *)

Section SaveFacts.
Import QString Text UmsDevice UmsMore.
Variable E : Env.

Lemma loop_unrecognized fs path lines p :
  Forall (fun l => recognized E l = false) lines ->
  fold_left (setupLine E fs path) lines p
  = mkParsed (p_audioFolder p) (p_audioFolderSetting p) (p_opts p)
             (p_unusedParams p ++ lines).
Proof.
  intros Hall. revert p. induction Hall as [|l lines Hl _ IH]; intros p; cbn [fold_left].
  - rewrite app_nil_r. destruct p; reflexivity.
  - rewrite IH, (setupLine_unrecognized E fs path p l Hl). cbn.
    rewrite <- app_assoc. reflexivity.
Qed.

Lemma filter_recognized_none lines :
  Forall (fun l => recognized E l = true) lines ->
  List.filter (fun l => negb (recognized E l)) lines = [].
Proof.
  intros H. induction H as [|l lines Hl _ IH]; [reflexivity|].
  cbn [List.filter]. rewrite Hl. exact IH.
Qed.

Lemma filter_unrecognized_all lines :
  Forall (fun l => recognized E l = false) lines ->
  List.filter (fun l => negb (recognized E l)) lines = lines.
Proof.
  intros H. induction H as [|l lines Hl _ IH]; [reflexivity|].
  cbn [List.filter]. rewrite Hl, IH. reflexivity.
Qed.

(** X22. [saveOptions] writes the settings file of the device and
    nothing else: every other file, the directories and what cannot
    be written stay as they are, and nothing at all happens when the
    device is not connected or the file cannot be opened. *)
Theorem saveOptions_writes_one_file (fs : FileSystem.t) (d : t) :
  (forall f, f <> settingsFile d ->
             FileSystem.files (saveOptions E fs d) !! f = FileSystem.files fs !! f)
  /\ FileSystem.dirs (saveOptions E fs d) = FileSystem.dirs fs
  /\ FileSystem.unwritable (saveOptions E fs d) = FileSystem.unwritable fs
  /\ (isConnected d = false -> saveOptions E fs d = fs)
  /\ (FileSystem.canWrite fs (settingsFile d) = false -> saveOptions E fs d = fs).
Proof.
  unfold saveOptions. fold (settingsFile d).
  split; [|split; [|split; [|split]]].
  - intros f Hf. destruct (negb _); [reflexivity|].
    destruct (FileSystem.canWrite _ _); [|reflexivity].
    unfold FileSystem.write. cbn [FileSystem.files]. apply lookup_insert_ne. congruence.
  - destruct (negb _); [reflexivity|]. destruct (FileSystem.canWrite _ _); reflexivity.
  - destruct (negb _); [reflexivity|]. destruct (FileSystem.canWrite _ _); reflexivity.
  - intros ->. reflexivity.
  - intros ->. destruct (negb _); reflexivity.
Qed.

(** X23. The unrecognized lines survive a save and a fresh read
    unchanged: what [setup] collects is never a recognized line, and
    when [unusedParams] holds no recognized line, a device that starts
    with none and reads the file written by [saveOptions] ends with
    the same lines in the same order. *)
Theorem saved_unused_lines_read_back (fs : FileSystem.t) (d : t) :
  isConnected d = true ->
  Forall (fun l => recognized E l = false) (unusedParams d) ->
  Forall (fun l => recognized E l = false) (unusedParams (fst (setup E fs d)))
  /\ (FileSystem.canWrite fs (settingsFile d) = true ->
      unusedParams (fst (setup E (saveOptions E fs d) (set_unusedParams [] d)))
      = unusedParams d).
Proof.
  intros Hc Hun. split.
  - destruct (FileSystem.files fs !! settingsFile d) as [lines|] eqn:Hf.
    + rewrite (setup_unusedParams E fs d lines Hc Hf). apply Forall_app. split; [exact Hun|].
      apply Forall_forall. intros l Hl. apply list_elem_of_In in Hl.
      apply filter_In in Hl as [_ Hl]. apply negb_true_iff. exact Hl.
    + unfold setup. rewrite Hc. cbn [negb].
      destruct (readOpts E fs _ (opts d)) as [haveOpts opts0].
      unfold settingsFile in Hf. rewrite Hf. exact Hun.
  - intros Hw.
    rewrite (setup_unusedParams E _ (set_unusedParams [] d) (savedKeys E d ++ unusedParams d)).
    + cbn [set_unusedParams unusedParams app]. rewrite List.filter_app.
      rewrite (filter_recognized_none _ (savedKeys_recognized E d)).
      apply filter_unrecognized_all. exact Hun.
    + destruct d; exact Hc.
    + replace (settingsFile (set_unusedParams [] d)) with (settingsFile d)
        by (destruct d; reflexivity).
      apply saveOptions_written; assumption.
Qed.

Lemma startsWith_keyLine_inv (k k' v : string) :
  hasChar "="%char k = false -> hasChar "="%char k' = false ->
  startsWith (keyLine k v) (k' +:+ "=") = true -> k = k'.
Proof.
  unfold keyLine. revert k. induction k' as [|c' k' IH]; intros k Hk Hk' H.
  - destruct k as [|c k]; [reflexivity|]. exfalso.
    cbn [hasChar] in Hk. apply orb_false_elim in Hk as [Hc _].
    change (startsWith (String c (k +:+ "=" +:+ v)) (String "="%char EmptyString) = true) in H.
    cbn [startsWith] in H. rewrite Ascii.eqb_sym, Hc in H. discriminate H.
  - cbn [hasChar] in Hk'. apply orb_false_elim in Hk' as [Hc' Hk'].
    destruct k as [|c k].
    + exfalso.
      change (startsWith (String "="%char v) (String c' (k' +:+ "=")) = true) in H.
      cbn [startsWith] in H. rewrite Hc' in H. discriminate H.
    + cbn [hasChar] in Hk. apply orb_false_elim in Hk as [_ Hk].
      change (startsWith (String c (k +:+ "=" +:+ v)) (String c' (k' +:+ "=")) = true) in H.
      cbn [startsWith] in H. destruct (Ascii.eqb_spec c' c) as [->|_]; [|discriminate H].
      f_equal. apply IH; assumption.
Qed.

(** The value read from a written line is the written value up to its
    first [=]. *)
Lemma value_keyLine (k v : string) :
  hasChar "="%char k = false -> value (keyLine k v) = upTo "="%char v.
Proof.
  intros Hk. unfold value, section, keyLine.
  change (k +:+ "=" +:+ v) with (k +:+ String "="%char v).
  rewrite fields_app, (fields_without_sep _ k Hk).
  destruct (fields_head "="%char v) as [rest ->]. reflexivity.
Qed.

Lemma isTrue_toString (k : string) (b : bool) :
  hasChar "="%char k = false -> isTrue (value (keyLine k (toString b))) = b.
Proof. intros Hk. rewrite value_keyLine by exact Hk. destruct b; reflexivity. Qed.

End SaveFacts.

(** Reading back needs keys that can be told apart: no two of the
    seven alike, none with a [=] in it. *)
Section DistinctKeys.
Import QString Text UmsDevice UmsMore.
Variable E : Env.
Hypothesis Hdistinct : NoDup (recognizedKeys E).
Hypothesis Hplain : Forall (fun k => hasChar "="%char k = false) (recognizedKeys E).

Lemma key_plain (i : nat) (k : string) :
  recognizedKeys E !! i = Some k -> hasChar "="%char k = false.
Proof. intros Hi. exact (proj1 (Forall_lookup _ _) Hplain i k Hi). Qed.

(** A written line is not taken for the line of another key. *)
Lemma key_other (i j : nat) (ki kj v : string) :
  recognizedKeys E !! i = Some ki -> recognizedKeys E !! j = Some kj -> i <> j ->
  startsWith (keyLine kj v) (ki +:+ "=") = false.
Proof.
  intros Hi Hj Hne. destruct (startsWith (keyLine kj v) (ki +:+ "=")) eqn:H; [|reflexivity].
  apply startsWith_keyLine_inv in H; [|exact (key_plain j kj Hj) | exact (key_plain i ki Hi)].
  subst kj. exfalso. apply Hne. exact (NoDup_lookup _ i j ki Hdistinct Hi Hj).
Qed.

Ltac other i j := rewrite (key_other i j _ _ _ eq_refl eq_refl ltac:(discriminate)).

Lemma read_folder fs path p v :
  p_opts (setupLine E fs path p (keyLine constMusicFolderKey v)) = p_opts p.
Proof. unfold setupLine. rewrite keyLine_startsWith. reflexivity. Qed.

Lemma read_scheme fs path p v :
  setupLine E fs path p (keyLine (constMusicFilenameSchemeKey E) v)
  = if negb (isEmpty (upTo "="%char v))
    then withOpts p (DeviceOptions.set_scheme (upTo "="%char v) (p_opts p))
    else p.
Proof.
  unfold setupLine. other 0%nat 1%nat. rewrite keyLine_startsWith.
  rewrite (value_keyLine _ v (key_plain 1 _ eq_refl)). reflexivity.
Qed.

Lemma read_vfat fs path p b :
  setupLine E fs path p (keyLine (constVfatSafeKey E) (toString b))
  = withOpts p (DeviceOptions.set_vfatSafe b (p_opts p)).
Proof.
  unfold setupLine. other 0%nat 2%nat. other 1%nat 2%nat. rewrite keyLine_startsWith.
  rewrite (isTrue_toString _ b (key_plain 2 _ eq_refl)). reflexivity.
Qed.

Lemma read_ascii fs path p b :
  setupLine E fs path p (keyLine (constAsciiOnlyKey E) (toString b))
  = withOpts p (DeviceOptions.set_asciiOnly b (p_opts p)).
Proof.
  unfold setupLine. other 0%nat 3%nat. other 1%nat 3%nat. other 2%nat 3%nat.
  rewrite keyLine_startsWith.
  rewrite (isTrue_toString _ b (key_plain 3 _ eq_refl)). reflexivity.
Qed.

Lemma read_ignoreThe fs path p b :
  setupLine E fs path p (keyLine (constIgnoreTheKey E) (toString b))
  = withOpts p (DeviceOptions.set_ignoreThe b (p_opts p)).
Proof.
  unfold setupLine. other 0%nat 4%nat. other 1%nat 4%nat. other 2%nat 4%nat.
  other 3%nat 4%nat. rewrite keyLine_startsWith.
  rewrite (isTrue_toString _ b (key_plain 4 _ eq_refl)). reflexivity.
Qed.

Lemma read_replaceSpaces fs path p b :
  setupLine E fs path p (keyLine (constReplaceSpacesKey E) (toString b))
  = withOpts p (DeviceOptions.set_replaceSpaces b (p_opts p)).
Proof.
  unfold setupLine. other 0%nat 5%nat. other 1%nat 5%nat. other 2%nat 5%nat.
  other 3%nat 5%nat. other 4%nat 5%nat. rewrite keyLine_startsWith.
  rewrite (isTrue_toString _ b (key_plain 5 _ eq_refl)). reflexivity.
Qed.

Lemma read_name fs path p v :
  setupLine E fs path p (keyLine constCollectionNameKey v)
  = withOpts p (DeviceOptions.set_name (trimmed (upTo "="%char v)) (p_opts p)).
Proof.
  unfold setupLine. other 0%nat 6%nat. other 1%nat 6%nat. other 2%nat 6%nat.
  other 3%nat 6%nat. other 4%nat 6%nat. other 5%nat 6%nat. rewrite keyLine_startsWith.
  rewrite (value_keyLine _ v (key_plain 6 _ eq_refl)). reflexivity.
Qed.

(** X24. One turn of the reading loop on a line as [saveOptions]
    writes it gives back the written value: a boolean exactly; a
    naming scheme and a collection name only up to their first [=],
    the name trimmed besides, and an empty scheme not at all. *)
Theorem setupLine_reads_written_line
        (fs : FileSystem.t) (path : string) (p : Parsed) (b : bool) (v : string) :
  DeviceOptions.vfatSafe
    (p_opts (setupLine E fs path p (keyLine (constVfatSafeKey E) (toString b)))) = b
  /\ DeviceOptions.asciiOnly
       (p_opts (setupLine E fs path p (keyLine (constAsciiOnlyKey E) (toString b)))) = b
  /\ DeviceOptions.ignoreThe
       (p_opts (setupLine E fs path p (keyLine (constIgnoreTheKey E) (toString b)))) = b
  /\ DeviceOptions.replaceSpaces
       (p_opts (setupLine E fs path p (keyLine (constReplaceSpacesKey E) (toString b)))) = b
  /\ DeviceOptions.scheme
       (p_opts (setupLine E fs path p (keyLine (constMusicFilenameSchemeKey E) v)))
     = (if isEmpty (upTo "="%char v) then DeviceOptions.scheme (p_opts p)
        else upTo "="%char v)
  /\ DeviceOptions.name
       (p_opts (setupLine E fs path p (keyLine constCollectionNameKey v)))
     = trimmed (upTo "="%char v)
  /\ (hasChar "="%char v = false -> upTo "="%char v = v).
Proof.
  rewrite read_vfat, read_ascii, read_ignoreThe, read_replaceSpaces, read_scheme, read_name.
  repeat split; try reflexivity.
  - destruct (isEmpty (upTo "="%char v)); reflexivity.
  - intros Hv. unfold upTo. induction v as [|c v IH]; [reflexivity|].
    cbn [hasChar] in Hv. apply orb_false_elim in Hv as [Hc Hv].
    cbn [span]. rewrite Ascii.eqb_sym, Hc.
    specialize (IH Hv). destruct (span (Ascii.eqb "="%char) v) as [x y].
    cbn [fst] in *. rewrite IH. reflexivity.
Qed.

(** What the loop makes of the key lines of [saveOptions]. *)
Lemma loop_saved_keys fs path (d : t) p :
  let o := opts d in
  let p' := fold_left (setupLine E fs path) (savedKeys E d) p in
  let differs (get : DeviceOptions.t -> bool) := negb (Bool.eqb (get o) (get (def E))) in
  DeviceOptions.vfatSafe (p_opts p')
  = (if negb (String.eqb (DeviceOptions.scheme o) (DeviceOptions.scheme (def E)))
     then DeviceOptions.vfatSafe o else DeviceOptions.vfatSafe (p_opts p))
  /\ DeviceOptions.asciiOnly (p_opts p')
     = (if differs DeviceOptions.asciiOnly then DeviceOptions.asciiOnly o
        else DeviceOptions.asciiOnly (p_opts p))
  /\ DeviceOptions.ignoreThe (p_opts p')
     = (if differs DeviceOptions.ignoreThe then DeviceOptions.ignoreThe o
        else DeviceOptions.ignoreThe (p_opts p))
  /\ DeviceOptions.replaceSpaces (p_opts p')
     = (if differs DeviceOptions.replaceSpaces then DeviceOptions.replaceSpaces o
        else DeviceOptions.replaceSpaces (p_opts p)).
Proof.
  cbv zeta. unfold savedKeys. cbv zeta. rewrite !fold_left_app. unfold emitIf.
  repeat match goal with
         | |- context [fold_left _ (if ?c then _ else _) _] => destruct c
         end;
    cbn [fold_left];
    rewrite ?read_name, ?read_replaceSpaces, ?read_ignoreThe, ?read_ascii, ?read_vfat,
      ?read_scheme;
    repeat match goal with
           | |- context [if negb (isEmpty ?x) then _ else _] => destruct (negb (isEmpty x))
           end;
    cbn [withOpts p_opts]; rewrite ?read_folder;
    repeat split; reflexivity.
Qed.

(** X25. A device that starts from the default flags and reads the
    file written by [saveOptions] for a device [d] gets [d]'s
    [asciiOnly], [ignoreThe] and [replaceSpaces] back.  It gets
    [d]'s [vfatSafe] only when [d]'s naming scheme is not the default
    one: the VFAT line is written under the test of the scheme, so
    with the default scheme [vfatSafe] comes back as its default. *)
Theorem saved_flags_read_back (fs : FileSystem.t) (d d0 : t) :
  isConnected d = true ->
  FileSystem.canWrite fs (settingsFile d) = true ->
  Forall (fun l => recognized E l = false) (unusedParams d) ->
  isConnected d0 = true ->
  spaceInfo d0 = spaceInfo d ->
  flags (snd (readOpts E (saveOptions E fs d)
                (path (spaceInfo d0) +:+ constCantataSettingsFile E) (opts d0)))
  = flags (def E) ->
  let o' := opts (fst (setup E (saveOptions E fs d) d0)) in
  DeviceOptions.asciiOnly o' = DeviceOptions.asciiOnly (opts d)
  /\ DeviceOptions.ignoreThe o' = DeviceOptions.ignoreThe (opts d)
  /\ DeviceOptions.replaceSpaces o' = DeviceOptions.replaceSpaces (opts d)
  /\ DeviceOptions.vfatSafe o'
     = (if String.eqb (DeviceOptions.scheme (opts d)) (DeviceOptions.scheme (def E))
        then DeviceOptions.vfatSafe (def E) else DeviceOptions.vfatSafe (opts d)).
Proof.
  intros Hc Hw Hun Hc0 Hspace Hflags o'.
  assert (Hfile : FileSystem.files (saveOptions E fs d) !! settingsFile d0
                  = Some (savedKeys E d ++ unusedParams d)).
  { replace (settingsFile d0) with (settingsFile d)
      by (unfold settingsFile; rewrite Hspace; reflexivity).
    apply saveOptions_written; assumption. }
  destruct (setup_connected E (saveOptions E fs d) d0 Hc0) as (_ & Hopts & _).
  cbv zeta in Hopts. unfold o'. rewrite Hopts. unfold parsed. rewrite Hfile.
  rewrite fold_left_app, (loop_unrecognized E _ _ _ _ Hun). cbn [p_opts].
  match goal with
  | |- context [fold_left ?f (savedKeys E d) ?p0] =>
      destruct (loop_saved_keys (saveOptions E fs d) (path (spaceInfo d0)) d p0)
        as (Hv & Ha & Hi & Hr);
      set (p' := fold_left f (savedKeys E d) p0) in *
  end.
  cbv zeta in Hv, Ha, Hi, Hr. cbn [p_opts] in Hv, Ha, Hi, Hr.
  unfold flags in Hflags. injection Hflags as Hfv Hfa Hfi Hfr.
  assert (Hcover : forall get : DeviceOptions.t -> bool,
             (forall c o, get (DeviceOptions.set_coverName c o) = get o) ->
             get (if isEmpty (DeviceOptions.coverName (p_opts p'))
                  then DeviceOptions.set_coverName (constDefCoverFileName E) (p_opts p')
                  else p_opts p') = get (p_opts p')).
  { intros get Hget.
    destruct (isEmpty (DeviceOptions.coverName (p_opts p'))); [apply Hget | reflexivity]. }
  rewrite !Hcover by (intros c o; reflexivity).
  rewrite Hv, Ha, Hi, Hr, Hfv, Hfa, Hfi, Hfr.
  repeat split.
  - destruct (DeviceOptions.asciiOnly (opts d)), (DeviceOptions.asciiOnly (def E));
      reflexivity.
  - destruct (DeviceOptions.ignoreThe (opts d)), (DeviceOptions.ignoreThe (def E));
      reflexivity.
  - destruct (DeviceOptions.replaceSpaces (opts d)), (DeviceOptions.replaceSpaces (def E));
      reflexivity.
  - destruct (String.eqb _ _); reflexivity.
Qed.

End DistinctKeys.

Lemma sample_keys_distinct : NoDup (UmsDevice.recognizedKeys SampleUms.env).
Proof. apply (bool_decide_unpack _). vm_compute. reflexivity. Qed.

Lemma sample_keys_plain :
  Forall (fun k => Text.hasChar "="%char k = false) (UmsDevice.recognizedKeys SampleUms.env).
Proof. repeat constructor. Qed.

Lemma saveOptions_writes_one_file_witness :
  UmsDevice.isConnected SampleUms.unplugged = false
  /\ UmsDevice.saveOptions SampleUms.env SampleUms.disk SampleUms.unplugged = SampleUms.disk
  /\ FileSystem.files (UmsDevice.saveOptions SampleUms.env SampleUms.disk SampleUms.vfatOff)
       !! "/media/usb/Music/a.ogg"
     = FileSystem.files SampleUms.disk !! "/media/usb/Music/a.ogg".
Proof.
  split; [reflexivity|]. split.
  - apply (proj1 (proj2 (proj2 (proj2 (saveOptions_writes_one_file SampleUms.env
                                         SampleUms.disk SampleUms.unplugged))))).
    reflexivity.
  - apply (proj1 (saveOptions_writes_one_file SampleUms.env SampleUms.disk SampleUms.vfatOff)).
    discriminate.
Defined.

Lemma saved_unused_lines_read_back_witness :
  UmsDevice.unusedParams SampleMore.autoScanStick = ["podcast_folder=Podcasts"]
  /\ UmsDevice.unusedParams
       (fst (UmsDevice.setup SampleUms.env
               (UmsDevice.saveOptions SampleUms.env SampleUms.disk SampleMore.autoScanStick)
               (UmsMore.set_unusedParams [] SampleMore.autoScanStick)))
     = ["podcast_folder=Podcasts"].
Proof.
  split; [reflexivity|].
  apply (proj2 (saved_unused_lines_read_back SampleUms.env SampleUms.disk
                  SampleMore.autoScanStick eq_refl ltac:(repeat constructor))).
  vm_compute. reflexivity.
Defined.

Lemma setupLine_reads_written_line_witness :
  DeviceOptions.asciiOnly
    (UmsDevice.p_opts
       (UmsDevice.setupLine SampleUms.env SampleUms.disk "/media/usb/"
          (UmsDevice.mkParsed "/media/usb/" "" SampleUms.defaults [])
          "ascii_only=true")) = true
  /\ DeviceOptions.scheme
       (UmsDevice.p_opts
          (UmsDevice.setupLine SampleUms.env SampleUms.disk "/media/usb/"
             (UmsDevice.mkParsed "/media/usb/" "" SampleUms.defaults [])
             "music_filenamescheme=%artist%=%title%")) = "%artist%".
Proof.
  pose proof (setupLine_reads_written_line SampleUms.env sample_keys_distinct
                sample_keys_plain SampleUms.disk "/media/usb/"
                (UmsDevice.mkParsed "/media/usb/" "" SampleUms.defaults [])
                true "%artist%=%title%") as (_ & Hascii & _ & _ & Hscheme & _).
  split; [exact Hascii | exact Hscheme].
Defined.

Lemma saved_flags_read_back_witness :
  let written :=
    UmsDevice.saveOptions SampleUms.env SampleUms.disk SampleMore.autoScanStick in
  DeviceOptions.ignoreThe (UmsDevice.opts SampleMore.autoScanStick) = true
  /\ DeviceOptions.ignoreThe (UmsDevice.opts SampleUms.schemeChanged) = false
  /\ DeviceOptions.ignoreThe
       (UmsDevice.opts (fst (UmsDevice.setup SampleUms.env written SampleUms.schemeChanged)))
     = true.
Proof.
  intros written. split; [reflexivity|]. split; [reflexivity|].
  assert (Hunused : Forall (fun l => UmsDevice.recognized SampleUms.env l = false)
                           (UmsDevice.unusedParams SampleMore.autoScanStick))
    by (repeat constructor).
  assert (Hw : FileSystem.canWrite SampleUms.disk
                 (UmsDevice.settingsFile SampleMore.autoScanStick) = true)
    by (vm_compute; reflexivity).
  exact (proj1 (proj2 (saved_flags_read_back SampleUms.env sample_keys_distinct
                         sample_keys_plain SampleUms.disk SampleMore.autoScanStick
                         SampleUms.schemeChanged eq_refl Hw Hunused eq_refl eq_refl eq_refl))).
Defined.

(** ** UmsDevice: properties dialog and reconnection *)

Section Properties.
Import QString Text UmsDevice UmsMore.
Variable E : Env.
Variable X : Helpers.

(** X26. On a device that is not connected [saveProperties] runs
    neither [saveOptions] nor [writeOpts] and keeps the audio folder,
    whatever folder is asked for; it emits neither [renamed] nor a
    rescan.  Unless nothing has changed, it still takes the new
    options, marks the device configured and shows the new name; its
    calls are then [saveCache] or [removeCache], by the new
    preference, exactly when the caching preference has changed,
    followed by [configurationChanged] and nothing more. *)
Theorem saveProperties_disconnected
        (fs : FileSystem.t) (d : t) (newPath : string) (newOpts : DeviceOptions.t) :
  isConnected d = false ->
  let '(d', fs', calls) := saveProperties E X fs d newPath newOpts in
  fs' = fs
  /\ audioFolder d' = audioFolder d
  /\ List.filter isRenamed calls = []
  /\ List.filter isRescan calls = []
  /\ List.filter isWriteOpts calls = []
  /\ ((configured d && optsEq X (opts d) newOpts
       && String.eqb (fixPath X newPath) (audioFolder d) = true
       /\ d' = d /\ calls = [])
      \/ (configured d && optsEq X (opts d) newOpts
          && String.eqb (fixPath X newPath) (audioFolder d) = false
          /\ opts d' = newOpts
          /\ configured d' = true
          /\ calls
             = (if Bool.eqb (DeviceOptions.useCache (opts d)) (DeviceOptions.useCache newOpts)
                then []
                else if DeviceOptions.useCache newOpts then [SaveCache] else [RemoveCache])
               ++ [ConfigurationChanged]
          /\ data d' = if String.eqb (DeviceOptions.name (opts d)) (shownName d newOpts)
                       then data d else shownName d newOpts)).
Proof.
  intros Hc. unfold saveProperties, shownName.
  destruct (configured d && optsEq X (opts d) newOpts
            && String.eqb (fixPath X newPath) (audioFolder d)).
  - repeat split; try reflexivity. left. repeat split; reflexivity.
  - cbv zeta.
    match goal with
    | |- context [isConnected ?d1] => change (isConnected d1) with (isConnected d)
    end.
    rewrite Hc. cbn [negb].
    destruct (String.eqb (DeviceOptions.name (opts d)) _);
      destruct (Bool.eqb _ _); destruct (DeviceOptions.useCache newOpts);
      cbn; repeat split; right; repeat split; reflexivity.
Qed.

(** X27. On a connected device, when something has changed and the
    settings file can be written, [saveProperties] takes the new
    folder and options and writes the file from them; the folder line
    comes first and is relative, [./<rest>], when the folder lies
    under the mount path.  A rescan is asked for exactly when the
    folder differs from the old one, and [renamed] is emitted exactly
    when the shown name differs from the name in the old options. *)
Theorem saveProperties_connected
        (fs : FileSystem.t) (d : t) (newPath : string) (newOpts : DeviceOptions.t) :
  isConnected d = true ->
  configured d && optsEq X (opts d) newOpts
    && String.eqb (fixPath X newPath) (audioFolder d) = false ->
  FileSystem.canWrite fs (settingsFile d) = true ->
  let '(d', fs', calls) := saveProperties E X fs d newPath newOpts in
  audioFolder d' = fixPath X newPath
  /\ opts d' = newOpts
  /\ configured d' = true
  /\ unusedParams d' = unusedParams d
  /\ FileSystem.files fs' !! settingsFile d = Some (savedLines E d')
  /\ (forall rest, fixPath X newPath = path (spaceInfo d) +:+ rest ->
                   head (savedLines E d') = Some ("audio_folder=./" +:+ rest))
  /\ (List.filter isRescan calls
      = if String.eqb (audioFolder d) (fixPath X newPath) then [] else [RescanDefault])
  /\ (List.filter isRenamed calls
      = if String.eqb (DeviceOptions.name (opts d)) (shownName d newOpts) then []
        else [Signal Renamed]).
Proof.
  intros Hc Hchanged Hw. unfold saveProperties, shownName. rewrite Hchanged. cbv zeta.
  match goal with
  | |- context [negb (isConnected ?d1)] => change (isConnected d1) with (isConnected d)
  end.
  rewrite Hc. cbn [negb].
  split; [reflexivity|]. split; [reflexivity|]. split; [reflexivity|].
  split; [reflexivity|]. split; [|split; [|split]].
  - match goal with
    | |- FileSystem.files (saveOptions E fs ?d2) !! _ = _ =>
        change (settingsFile d) with (settingsFile d2);
        apply (saveOptions_written E fs d2); [exact Hc | exact Hw]
    end.
  - intros rest Hrest. unfold savedLines, savedKeys.
    cbn [audioFolder spaceInfo]. rewrite Hrest, startsWith_app.
    unfold size. rewrite mid_app_0. reflexivity.
  - cbn [audioFolder].
    destruct (String.eqb (audioFolder d) (fixPath X newPath));
      destruct (String.eqb (DeviceOptions.name (opts d)) _);
      destruct (Bool.eqb _ _); destruct (DeviceOptions.useCache newOpts); reflexivity.
  - cbn [audioFolder].
    destruct (String.eqb (audioFolder d) (fixPath X newPath));
      destruct (String.eqb (DeviceOptions.name (opts d)) _);
      destruct (Bool.eqb _ _); destruct (DeviceOptions.useCache newOpts); reflexivity.
Qed.

(** X28. [saveProperties()], what the cancelled dialog of a device not
    yet configured calls, does nothing on a configured device whose
    folder and options are in order; on a connected device not yet
    configured it marks the device configured and writes the settings
    file from the current folder and options, without asking for a
    rescan. *)
Theorem saveCurrentProperties_first_time (fs : FileSystem.t) (d : t) :
  fixPath X (audioFolder d) = audioFolder d ->
  (configured d = true -> optsEq X (opts d) (opts d) = true ->
   saveCurrentProperties E X fs d = (d, fs, []))
  /\ (configured d = false -> isConnected d = true ->
      FileSystem.canWrite fs (settingsFile d) = true ->
      let '(d', fs', calls) := saveCurrentProperties E X fs d in
      configured d' = true
      /\ FileSystem.files fs' !! settingsFile d = Some (savedLines E d)
      /\ List.filter isRescan calls = []).
Proof.
  intros Hfix. unfold saveCurrentProperties. split.
  - intros Hconf Heq. unfold saveProperties.
    rewrite Hconf, Heq, Hfix, String.eqb_refl. reflexivity.
  - intros Hconf Hc Hw. unfold saveProperties. rewrite Hconf, Hfix. cbn [andb]. cbv zeta.
    match goal with
    | |- context [negb (isConnected ?d1)] => change (isConnected d1) with (isConnected d)
    end.
    rewrite Hc. cbn [negb]. split; [reflexivity|]. split.
    + match goal with
      | |- FileSystem.files (saveOptions E fs ?d2) !! _ = _ =>
          change (settingsFile d) with (settingsFile d2);
          change (savedLines E d) with (savedLines E d2);
          apply (saveOptions_written E fs d2); [exact Hc | exact Hw]
      end.
    + cbn [audioFolder]. rewrite String.eqb_refl, Bool.eqb_reflx.
      destruct (String.eqb _ _); reflexivity.
Qed.

(** X29. When the device comes back, [connectionStateChanged] runs
    [setup] and then repeats the end of it: with automatic scanning on
    a rescan from the cache is asked for twice.  The lines of the
    settings file that are not recognized are added to those already
    kept.  A device that went away is only cleared. *)
Theorem connectionStateChanged_runs_setup (fs : FileSystem.t) (d : t) :
  (isConnected d = false -> connectionStateChanged E X fs d = (d, [Clear]))
  /\ (isConnected d = true ->
      let mounted :=
        set_spaceInfo
          (setPath X (spaceInfo d)
             (match access d with Some a => filePath a | None => EmptyString end)) d in
      let '(d', calls) := connectionStateChanged E X fs d in
      (DeviceOptions.autoScan (opts d') = true ->
       List.filter isRescan calls = [Signal (Rescan false); Signal (Rescan false)])
      /\ (forall lines,
             FileSystem.files fs !! settingsFile mounted = Some lines ->
             unusedParams d'
             = unusedParams d ++ List.filter (fun l => negb (recognized E l)) lines)
      /\ endsWithChar (audioFolder d') "/"%char = true).
Proof.
  unfold connectionStateChanged. split; [intros ->; reflexivity|].
  intros Hc. rewrite Hc. cbv zeta.
  set (mounted := set_spaceInfo _ d).
  assert (Hcm : isConnected mounted = true) by (destruct d; exact Hc).
  destruct (setup_connected E fs mounted Hcm) as (Hfolder & Hopts & _ & _ & Hev).
  cbv zeta in Hfolder, Hopts, Hev.
  pose proof (setup_unusedParams E fs mounted) as Hunused.
  destruct (setup E fs mounted) as [d1 events] eqn:Hsetup. cbn [fst snd] in *.
  assert (Hscanned : scanned d1 = scanned mounted).
  { pose proof (f_equal fst Hsetup) as H1. cbn [fst] in H1. rewrite <- H1.
    unfold setup. rewrite Hcm. cbn [negb].
    destruct (readOpts E fs _ (opts mounted)) as [h o].
    destruct (FileSystem.files fs !! _); reflexivity. }
  destruct (DeviceOptions.autoScan (opts d1) || scanned d1) eqn:Hscan.
  - split; [|split].
    + intros Hauto. rewrite Hev, <- Hopts, Hauto. cbn [orb].
      match goal with
      | |- context [if ?c then [Renamed] else []] => destruct c
      end; reflexivity.
    + intros lines Hlines. rewrite (Hunused lines Hcm Hlines). destruct d; reflexivity.
    + rewrite Hfolder. apply withSlash_ends.
  - apply orb_false_elim in Hscan as [Hauto _]. split; [|split].
    + intros H. cbn [set_statusMessage opts] in H. rewrite H in Hauto. discriminate Hauto.
    + intros lines Hlines. cbn [set_statusMessage unusedParams].
      rewrite (Hunused lines Hcm Hlines). destruct d; reflexivity.
    + cbn [set_statusMessage audioFolder]. rewrite Hfolder. apply withSlash_ends.
Qed.

End Properties.

Lemma saveProperties_disconnected_witness :
  let '(d', fs', calls) :=
    UmsMore.saveProperties SampleUms.env SampleMore.helpers SampleUms.disk
      SampleUms.unplugged "/media/usb/Albums" SampleMore.namedWithoutCache in
  UmsDevice.audioFolder d' = "/media/usb/Music/"
  /\ UmsDevice.data d' = "My stick"
  /\ calls = [UmsMore.RemoveCache; UmsMore.ConfigurationChanged].
Proof.
  pose proof (saveProperties_disconnected SampleUms.env SampleMore.helpers SampleUms.disk
                SampleUms.unplugged "/media/usb/Albums" SampleMore.namedWithoutCache
                eq_refl) as H.
  destruct (UmsMore.saveProperties SampleUms.env SampleMore.helpers SampleUms.disk
              SampleUms.unplugged "/media/usb/Albums" SampleMore.namedWithoutCache)
    as [[d' fs'] calls].
  destruct H as (_ & Hfolder & _ & _ & _ & [(Hsame & _)|(_ & _ & _ & Hcalls & Hdata)]);
    [discriminate Hsame|].
  split; [rewrite Hfolder; reflexivity|]. split; [rewrite Hdata; reflexivity|].
  rewrite Hcalls. reflexivity.
Defined.

Lemma saveProperties_connected_witness :
  let '(d', fs', calls) :=
    UmsMore.saveProperties SampleUms.env SampleMore.helpers SampleUms.disk
      SampleUms.vfatOff "/media/usb/Albums"
      (DeviceOptions.set_name "My stick" SampleUms.defaults) in
  UmsDevice.audioFolder d' = "/media/usb/Albums/"
  /\ head (UmsDevice.savedLines SampleUms.env d') = Some "audio_folder=./Albums/"
  /\ List.filter UmsMore.isRescan calls = [UmsMore.RescanDefault]
  /\ List.filter UmsMore.isRenamed calls = [UmsMore.Signal UmsDevice.Renamed].
Proof.
  pose proof (saveProperties_connected SampleUms.env SampleMore.helpers SampleUms.disk
                SampleUms.vfatOff "/media/usb/Albums"
                (DeviceOptions.set_name "My stick" SampleUms.defaults)
                eq_refl eq_refl eq_refl) as H.
  destruct (UmsMore.saveProperties SampleUms.env SampleMore.helpers SampleUms.disk
              SampleUms.vfatOff "/media/usb/Albums"
              (DeviceOptions.set_name "My stick" SampleUms.defaults))
    as [[d' fs'] calls].
  destruct H as (Hfolder & _ & _ & _ & _ & Hline & Hrescan & Hrenamed).
  split; [rewrite Hfolder; reflexivity|].
  split; [exact (Hline "Albums/" eq_refl)|].
  split; [exact Hrescan | exact Hrenamed].
Defined.

Lemma saveCurrentProperties_first_time_witness :
  UmsMore.saveCurrentProperties SampleUms.env SampleMore.helpers SampleUms.disk
    SampleMore.autoScanStick
  = (SampleMore.autoScanStick, SampleUms.disk, []).
Proof.
  exact (proj1 (saveCurrentProperties_first_time SampleUms.env SampleMore.helpers
                  SampleUms.disk SampleMore.autoScanStick eq_refl) eq_refl eq_refl).
Defined.

Lemma connectionStateChanged_runs_setup_witness :
  let '(d', calls) :=
    UmsMore.connectionStateChanged SampleUms.env SampleMore.helpers SampleUms.disk
      SampleMore.autoScanStick in
  List.filter UmsMore.isRescan calls
  = [UmsMore.Signal (UmsDevice.Rescan false); UmsMore.Signal (UmsDevice.Rescan false)]
  /\ UmsDevice.unusedParams d' = ["podcast_folder=Podcasts"; "podcast_folder=Podcasts"].
Proof.
  pose proof (proj2 (connectionStateChanged_runs_setup SampleUms.env SampleMore.helpers
                       SampleUms.disk SampleMore.autoScanStick) eq_refl) as H.
  cbv zeta in H.
  destruct (UmsMore.connectionStateChanged SampleUms.env SampleMore.helpers SampleUms.disk
              SampleMore.autoScanStick) as [d' calls] eqn:Hrun.
  destruct H as (Hrescan & Hunused & _). split.
  - apply Hrescan. vm_compute in Hrun. injection Hrun as <- _. reflexivity.
  - rewrite (Hunused ["audio_folder=Music"; "vfat_safe=true"; "podcast_folder=Podcasts"])
      by (vm_compute; reflexivity).
    reflexivity.
Defined.
